(** * Inventory ledger: a shallow embedding of [inventory_system.py]

    The Python class [InventorySystem] keeps one attribute, [stock_data],
    a dict from item names to quantities.  The embedding follows the
    source method by method: [add_item], [remove_item], [get_qty],
    [load_data], [save_data] and [check_low_items]; [print_data] and
    [main] only print and call these, and are left out.

    Python values are a small universe [PyVal]; a [str] is its sequence
    of code points; a [dict] is an association list in insertion order
    with unique keys; an [int] is an unbounded [Z] (the limits of the
    interpreter on recursion, memory and the length of integer texts are
    not part of the model).  A method returns an [Outcome]: the new
    object together with the log records it emitted, or the exception
    that leaves the method.  Floating point is outside the model: a
    value read from a float literal is kept as its literal, and
    arithmetic on it yields [Beyond].  The file system is a parameter of
    [load_data] and [save_data].  Default arguments are passed
    explicitly. *)

From Stdlib Require Import String Ascii.
From Stdlib Require Import List ZArith NArith Bool Lia.
From Stdlib Require Import DecimalN DecimalFacts.
Import ListNotations.

Local Open Scope Z_scope.
Local Set Warnings "-register-all".

(** ** Python values *)

Module Py.

(** A [str]: the list of its code points. *)
Definition pystr := list N.

Definition of_string (s : string) : pystr :=
  map N_of_ascii (list_ascii_of_string s).

Fixpoint str_eqb (a b : pystr) : bool :=
  match a, b with
  | [], [] => true
  | x :: a', y :: b' => N.eqb x y && str_eqb a' b'
  | _, _ => false
  end.

Inductive PyVal : Type :=
| PyNone
| PyBool (b : bool)
| PyInt (z : Z)
| PyFloat (literal : pystr)
| PyStr (s : pystr)
| PyList (l : list PyVal)
| PyDict (d : list (pystr * PyVal)).

Inductive PyExn : Type :=
| TypeError
| AttributeError
| KeyError
| IndexError
| PermissionError.

Inductive Outcome (A : Type) : Type :=
| Ok (a : A)
| Raise (e : PyExn)
| Beyond.

Arguments Ok {A} a.
Arguments Raise {A} e.
Arguments Beyond {A}.

Definition bind {A B : Type} (m : Outcome A) (k : A -> Outcome B) : Outcome B :=
  match m with
  | Ok a => k a
  | Raise e => Raise e
  | Beyond => Beyond
  end.

(** [isinstance(v, str)] *)
Definition isinstance_str (v : PyVal) : bool :=
  match v with PyStr _ => true | _ => false end.

(** [isinstance(v, int)]: [bool] is a subclass of [int]. *)
Definition isinstance_int (v : PyVal) : bool :=
  match v with PyInt _ | PyBool _ => true | _ => false end.

(** The integer an int-typed value stands for ([True] is 1). *)
Definition int_value (v : PyVal) : option Z :=
  match v with
  | PyInt z => Some z
  | PyBool true => Some 1
  | PyBool false => Some 0
  | _ => None
  end.

(** [v == s] for a str [s]: only a str can be equal to a str. *)
Definition eq_str (v : PyVal) (s : pystr) : bool :=
  match v with PyStr t => str_eqb t s | _ => false end.

(** [a + b] and [a - b] where [b] is int-typed, as the methods use
    them: on two int-typed values the result is an int; a float operand
    is outside the model; otherwise TypeError.  [str + str] and
    [list + list] cannot occur with an int-typed right operand. *)
Definition arith (op : Z -> Z -> Z) (a b : PyVal) : Outcome PyVal :=
  match int_value a, int_value b with
  | Some x, Some y => Ok (PyInt (op x y))
  | _, _ =>
      match a, b with
      | PyFloat _, (PyInt _ | PyBool _ | PyFloat _) => Beyond
      | (PyInt _ | PyBool _), PyFloat _ => Beyond
      | _, _ => Raise TypeError
      end
  end.

Definition add := arith Z.add.
Definition sub := arith Z.sub.

(** [v <= n] and [v < n] for an int [n]. *)
Definition cmp_int (test : Z -> Z -> bool) (v : PyVal) (n : Z) : Outcome bool :=
  match int_value v with
  | Some x => Ok (test x n)
  | None => match v with PyFloat _ => Beyond | _ => Raise TypeError end
  end.

Definition le_int := cmp_int Z.leb.
Definition lt_int := cmp_int Z.ltb.

(** *** dict: association list in insertion order, keys unique *)

Definition dict := list (pystr * PyVal).

Fixpoint lookup (k : pystr) (d : dict) : option PyVal :=
  match d with
  | [] => None
  | (k', v) :: d' => if str_eqb k k' then Some v else lookup k d'
  end.

(** [d[k] = v]: an existing key keeps its position, a new key goes last. *)
Fixpoint set (k : pystr) (v : PyVal) (d : dict) : dict :=
  match d with
  | [] => [(k, v)]
  | (k', v') :: d' =>
      if str_eqb k k' then (k', v) :: d' else (k', v') :: set k v d'
  end.

(** [del d[k]] (on a present key). *)
Definition del (k : pystr) (d : dict) : dict :=
  filter (fun kv => negb (str_eqb k (fst kv))) d.

Definition keys (d : dict) : list pystr := map fst d.

Fixpoint mem (k : pystr) (l : list pystr) : bool :=
  match l with
  | [] => false
  | k' :: l' => str_eqb k k' || mem k l'
  end.

Fixpoint distinct (l : list pystr) : bool :=
  match l with
  | [] => true
  | k :: l' => negb (mem k l') && distinct l'
  end.

(** Sequence indexing [l[i]]: a negative index counts from the end. *)
Definition index {A : Type} (l : list A) (i : Z) : option A :=
  let n := Z.of_nat (length l) in
  if (0 <=? i) && (i <? n) then nth_error l (Z.to_nat i)
  else if (- n <=? i) && (i <? 0) then nth_error l (Z.to_nat (i + n))
  else None.

(** [o[key]] *)
Definition getitem (o key : PyVal) : Outcome PyVal :=
  match o with
  | PyDict d =>
      match key with
      | PyStr k => match lookup k d with Some v => Ok v | None => Raise KeyError end
      | PyList _ | PyDict _ => Raise TypeError
      | _ => Raise KeyError
      end
  | PyList l =>
      match int_value key with
      | Some i => match index l i with Some v => Ok v | None => Raise IndexError end
      | None => Raise TypeError
      end
  | PyStr s =>
      match int_value key with
      | Some i => match index s i with Some c => Ok (PyStr [c]) | None => Raise IndexError end
      | None => Raise TypeError
      end
  | _ => Raise TypeError
  end.

(** The items [for item in o] visits: the keys of a dict in insertion
    order, the elements of a list, the characters of a str. *)
Definition iter (o : PyVal) : Outcome (list PyVal) :=
  match o with
  | PyDict d => Ok (map PyStr (keys d))
  | PyList l => Ok l
  | PyStr s => Ok (map (fun c => PyStr [c]) s)
  | _ => Raise TypeError
  end.

(** [o.get(key, default)] *)
Definition get (o key default : PyVal) : Outcome PyVal :=
  match o with
  | PyDict d =>
      match key with
      | PyStr k => Ok (match lookup k d with Some v => v | None => default end)
      | PyList _ | PyDict _ => Raise TypeError
      | _ => Ok default
      end
  | _ => Raise AttributeError
  end.

(** [o[key] = v] with a str key, returning the updated object. *)
Definition setitem (o : PyVal) (k : pystr) (v : PyVal) : Outcome PyVal :=
  match o with
  | PyDict d => Ok (PyDict (set k v d))
  | _ => Raise TypeError
  end.

(** [del o[key]] with a str key. *)
Definition delitem (o : PyVal) (k : pystr) : Outcome PyVal :=
  match o with
  | PyDict d =>
      match lookup k d with
      | Some _ => Ok (PyDict (del k d))
      | None => Raise KeyError
      end
  | _ => Raise TypeError
  end.

End Py.

Import Py.

Notation "x <- m ;; k" := (bind m (fun x => k))
  (at level 61, m at next level, right associativity).

(** ** Log records

    The methods log through the [logging] module.  A record is kept as
    its level and the call site with the values formatted into the
    message; the text and the timestamp are not modelled. *)

Inductive Level : Type := INFO | WARNING | ERROR.

Inductive Message : Type :=
| InvalidItemName
| InvalidQuantity (qty item : PyVal)
| Added (qty item : PyVal)
| InvalidTypesForRemove (item qty : PyVal)
| RemovedFromStock (item : PyVal)
| RemoveNonExistent (item : PyVal)
| DataLoaded (file : pystr)
| FileNotFound (file : pystr)
| ErrorDecodingJSON (file : pystr)
| DataSaved (file : pystr)
| ErrorSaving (file : pystr).

Inductive LogRecord : Type := Log (lvl : Level) (msg : Message).

(** ** The class [InventorySystem] *)

Record InventorySystem : Type := { stock_data : PyVal }.

(** [__init__] *)
Definition init : InventorySystem := {| stock_data := PyDict [] |}.

Definition Step : Type := Outcome (InventorySystem * list LogRecord).

Definition default_name : pystr := of_string "default".

(** [add_item(self, item, qty)] *)
Definition add_item (self : InventorySystem) (item qty : PyVal) : Step :=
  if negb (isinstance_str item) || eq_str item default_name then
    Ok (self, [Log WARNING InvalidItemName])
  else if negb (isinstance_int qty) then
    Ok (self, [Log WARNING (InvalidQuantity qty item)])
  else
    match item with
    | PyStr name =>
        old <- get (stock_data self) item (PyInt 0) ;;
        new <- add old qty ;;
        sd <- setitem (stock_data self) name new ;;
        Ok ({| stock_data := sd |}, [Log INFO (Added qty item)])
    | _ => Raise TypeError
    end.

(** [try: body except KeyError: handler] *)
Definition except_KeyError (body handler : Step) : Step :=
  match body with
  | Raise KeyError => handler
  | r => r
  end.

(** [remove_item(self, item, qty)].  The dict is updated in place, so the
    handler sees the object as it is when the KeyError is raised. *)
Definition remove_item (self : InventorySystem) (item qty : PyVal) : Step :=
  if negb (isinstance_str item) || negb (isinstance_int qty) then
    Ok (self, [Log WARNING (InvalidTypesForRemove item qty)])
  else
    match item with
    | PyStr name =>
        let handler s := Ok (s, [Log WARNING (RemoveNonExistent item)]) in
        except_KeyError
          (old <- getitem (stock_data self) item ;;
           new <- sub old qty ;;
           sd <- setitem (stock_data self) name new ;;
           let self1 := {| stock_data := sd |} in
           except_KeyError
             (cur <- getitem sd item ;;
              gone <- le_int cur 0 ;;
              if gone then
                sd' <- delitem sd name ;;
                Ok ({| stock_data := sd' |}, [Log INFO (RemovedFromStock item)])
              else Ok (self1, []))
             (handler self1))
          (handler self)
    | _ => Raise TypeError
    end.

(** [get_qty(self, item)] *)
Definition get_qty (self : InventorySystem) (item : PyVal) : Outcome PyVal :=
  get (stock_data self) item (PyInt 0).

(** [check_low_items(self, threshold)]: the comprehension
    [[item for item in self.stock_data if self.stock_data[item] < threshold]]. *)
Fixpoint comprehension (sd : PyVal) (threshold : Z) (items : list PyVal)
  : Outcome (list PyVal) :=
  match items with
  | [] => Ok []
  | item :: rest =>
      v <- getitem sd item ;;
      low <- lt_int v threshold ;;
      tl <- comprehension sd threshold rest ;;
      Ok (if low then item :: tl else tl)
  end.

Definition check_low_items (self : InventorySystem) (threshold : Z)
  : Outcome (list PyVal) :=
  items <- iter (stock_data self) ;;
  comprehension (stock_data self) threshold items.

(** ** The [json] module

    [json.dumps(obj, indent=4)] and [json.loads(s)] of the standard
    library, on the values above.  The encoder escapes every character
    outside the printable ASCII range (the default [ensure_ascii]); the
    decoder follows the scanner of the library: the JSON grammar with the
    constants [NaN], [Infinity] and [-Infinity], strict strings, and
    surrogate pairs joined into one code point. *)

Module Json.

Local Open Scope N_scope.

Definition is_ws (c : N) : bool :=
  (c =? 32) || (c =? 9) || (c =? 10) || (c =? 13).

Definition is_digit (c : N) : bool := (48 <=? c) && (c <=? 57).

Fixpoint skip_ws (s : pystr) : pystr :=
  match s with
  | c :: r => if is_ws c then skip_ws r else s
  | [] => []
  end.

(** *** Integers in decimal *)

Fixpoint uint_chars (u : Decimal.uint) : pystr :=
  match u with
  | Decimal.Nil => []
  | Decimal.D0 u' => 48 :: uint_chars u'
  | Decimal.D1 u' => 49 :: uint_chars u'
  | Decimal.D2 u' => 50 :: uint_chars u'
  | Decimal.D3 u' => 51 :: uint_chars u'
  | Decimal.D4 u' => 52 :: uint_chars u'
  | Decimal.D5 u' => 53 :: uint_chars u'
  | Decimal.D6 u' => 54 :: uint_chars u'
  | Decimal.D7 u' => 55 :: uint_chars u'
  | Decimal.D8 u' => 56 :: uint_chars u'
  | Decimal.D9 u' => 57 :: uint_chars u'
  end.

Definition digit_cons (c : N) (u : Decimal.uint) : Decimal.uint :=
  match c with
  | 48 => Decimal.D0 u
  | 49 => Decimal.D1 u
  | 50 => Decimal.D2 u
  | 51 => Decimal.D3 u
  | 52 => Decimal.D4 u
  | 53 => Decimal.D5 u
  | 54 => Decimal.D6 u
  | 55 => Decimal.D7 u
  | 56 => Decimal.D8 u
  | _ => Decimal.D9 u
  end.

Fixpoint chars_uint (s : pystr) : Decimal.uint :=
  match s with
  | [] => Decimal.Nil
  | c :: r => digit_cons c (chars_uint r)
  end.

(** [int.__repr__] *)
Definition int_repr (z : Z) : pystr :=
  match z with
  | Zneg p => 45 :: uint_chars (N.to_uint (Npos p))
  | _ => uint_chars (N.to_uint (Z.to_N z))
  end.

(** *** Strings *)

Definition hex_digit (d : N) : N := if d <? 10 then 48 + d else 87 + d.

Definition hex_value (c : N) : option N :=
  if is_digit c then Some (c - 48)
  else if (97 <=? c) && (c <=? 102) then Some (c - 87)
  else if (65 <=? c) && (c <=? 70) then Some (c - 55)
  else None.

(** [\uXXXX] *)
Definition u_escape (n : N) : pystr :=
  [92; 117; hex_digit (n / 4096); hex_digit ((n / 256) mod 16);
   hex_digit ((n / 16) mod 16); hex_digit (n mod 16)].

Definition escape_char (c : N) : pystr :=
  if c =? 34 then [92; 34]
  else if c =? 92 then [92; 92]
  else if c =? 10 then [92; 110]
  else if c =? 13 then [92; 114]
  else if c =? 9 then [92; 116]
  else if c =? 8 then [92; 98]
  else if c =? 12 then [92; 102]
  else if (32 <=? c) && (c <=? 126) then [c]
  else if c <? 65536 then u_escape c
  else
    let n := c - 65536 in
    u_escape (N.lor 55296 (N.land (N.shiftr n 10) 1023))
      ++ u_escape (N.lor 56320 (N.land n 1023)).

(** [encode_basestring_ascii] *)
Definition encode_str (s : pystr) : pystr :=
  34 :: flat_map escape_char s ++ [34].

Definition hex4 (a b c d : N) : option N :=
  match hex_value a, hex_value b, hex_value c, hex_value d with
  | Some x, Some y, Some z, Some w => Some (((x * 16 + y) * 16 + z) * 16 + w)
  | _, _, _, _ => None
  end.

Definition is_high_surrogate (u : N) : bool := (55296 <=? u) && (u <=? 56319).
Definition is_low_surrogate (u : N) : bool := (56320 <=? u) && (u <=? 57343).

Definition join_surrogates (hi lo : N) : N :=
  65536 + (hi - 55296) * 1024 + (lo - 56320).

Definition simple_escape (e : N) : option N :=
  match e with
  | 34 => Some 34
  | 92 => Some 92
  | 47 => Some 47
  | 98 => Some 8
  | 102 => Some 12
  | 110 => Some 10
  | 114 => Some 13
  | 116 => Some 9
  | _ => None
  end.

Definition cons_char (c : N) (r : option (pystr * pystr)) : option (pystr * pystr) :=
  match r with
  | Some (t, rest) => Some (c :: t, rest)
  | None => None
  end.

(** [scanstring(s, end, strict=True)], from the character after the
    opening quote: the decoded string and the text after the closing
    quote. *)
Fixpoint scanstring (s : pystr) : option (pystr * pystr) :=
  match s with
  | [] => None
  | c :: r =>
      if c =? 34 then Some ([], r)
      else if c =? 92 then
        match r with
        | [] => None
        | e :: r1 =>
            if e =? 117 then
              match r1 with
              | h1 :: h2 :: h3 :: h4 :: r2 =>
                  match hex4 h1 h2 h3 h4 with
                  | None => None
                  | Some u =>
                      match r2 with
                      | b :: u' :: r3 =>
                          if is_high_surrogate u && (b =? 92) && (u' =? 117) then
                            match r3 with
                            | k1 :: k2 :: k3 :: k4 :: r4 =>
                                match hex4 k1 k2 k3 k4 with
                                | None => None
                                | Some u2 =>
                                    if is_low_surrogate u2
                                    then cons_char (join_surrogates u u2) (scanstring r4)
                                    else cons_char u (scanstring r2)
                                end
                            | _ => None
                            end
                          else cons_char u (scanstring r2)
                      | _ => cons_char u (scanstring r2)
                      end
                  end
              | _ => None
              end
            else
              match simple_escape e with
              | Some c' => cons_char c' (scanstring r1)
              | None => None
              end
        end
      else if c <=? 31 then None
      else cons_char c (scanstring r)
  end.

(** Whether the text after the escape of a high surrogate does not go on
    with the escape of a low surrogate. *)
Definition no_low_escape (r2 : pystr) : bool :=
  match r2 with
  | b :: u' :: r3 =>
      if (b =? 92) && (u' =? 117) then
        match r3 with
        | k1 :: k2 :: k3 :: k4 :: _ =>
            match hex4 k1 k2 k3 k4 with
            | Some u2 => negb (is_low_surrogate u2)
            | None => false
            end
        | _ => false
        end
      else true
  | _ => true
  end.

(** *** Numbers *)

Fixpoint span_digits (s : pystr) : pystr * pystr :=
  match s with
  | c :: r =>
      if is_digit c then let (ds, rest) := span_digits r in (c :: ds, rest)
      else ([], s)
  | [] => ([], [])
  end.

(** The integer part [0|[1-9]\d*]. *)
Definition match_int_part (s : pystr) : option (pystr * pystr) :=
  match s with
  | c :: r =>
      if c =? 48 then Some ([c], r)
      else if is_digit c then let (ds, rest) := span_digits r in Some (c :: ds, rest)
      else None
  | [] => None
  end.

(** The fraction [(\.\d+)?]. *)
Definition match_frac (s : pystr) : pystr * pystr :=
  match s with
  | p :: c :: r =>
      if (p =? 46) && is_digit c then
        let (ds, rest) := span_digits r in (p :: c :: ds, rest)
      else ([], s)
  | _ => ([], s)
  end.

(** The exponent [([eE][-+]?\d+)?]. *)
Definition match_exp (s : pystr) : pystr * pystr :=
  match s with
  | e :: r =>
      if (e =? 101) || (e =? 69) then
        let (sign, r1) :=
          match r with
          | g :: r' => if (g =? 43) || (g =? 45) then ([g], r') else ([], r)
          | [] => ([], r)
          end in
        match span_digits r1 with
        | ([], _) => ([], s)
        | (ds, rest) => (e :: sign ++ ds, rest)
        end
      else ([], s)
  | [] => ([], s)
  end.

(** The number after its sign: an int when there is neither fraction nor
    exponent, a float otherwise. *)
Definition match_unsigned (neg : bool) (s : pystr) : option (PyVal * pystr) :=
  match match_int_part s with
  | None => None
  | Some (ip, r1) =>
      let (frac, r2) := match_frac r1 in
      let (ex, r3) := match_exp r2 in
      match frac, ex with
      | [], [] =>
          let n := Z.of_N (N.of_uint (chars_uint ip)) in
          Some (PyInt (if neg then (- n)%Z else n), r3)
      | _, _ =>
          Some (PyFloat ((if neg then [45] else []) ++ ip ++ frac ++ ex), r3)
      end
  end.

(** A number: an optional minus sign, the integer part, an optional
    fraction and an optional exponent. *)
Definition match_number (s : pystr) : option (PyVal * pystr) :=
  match s with
  | c :: r => if c =? 45 then match_unsigned true r else match_unsigned false s
  | [] => None
  end.

(** *** Values *)

Fixpoint strip_prefix (p s : pystr) : option pystr :=
  match p, s with
  | [], _ => Some s
  | a :: p', b :: s' => if a =? b then strip_prefix p' s' else None
  | _ :: _, [] => None
  end.

Section Containers.

Variable scan : pystr -> option (PyVal * pystr).

(** The elements of an array, from the first character of an element. *)
Fixpoint parse_elements (n : nat) (acc : list PyVal) (s : pystr)
  : option (PyVal * pystr) :=
  match n with
  | O => None
  | S n' =>
      match scan s with
      | None => None
      | Some (v, r) =>
          match skip_ws r with
          | c :: r' =>
              if c =? 93 then Some (PyList (rev (v :: acc)), r')
              else if c =? 44 then parse_elements n' (v :: acc) (skip_ws r')
              else None
          | [] => None
          end
      end
  end.

(** The members of an object, from the quote that opens a name.  A
    repeated name keeps its first position and takes the last value. *)
Fixpoint parse_members (n : nat) (acc : dict) (s : pystr)
  : option (PyVal * pystr) :=
  match n with
  | O => None
  | S n' =>
      match s with
      | q :: r =>
          if q =? 34 then
            match scanstring r with
            | None => None
            | Some (k, r1) =>
                match skip_ws r1 with
                | c1 :: r2 =>
                    if c1 =? 58 then
                      match scan (skip_ws r2) with
                      | None => None
                      | Some (v, r3) =>
                          match skip_ws r3 with
                          | c2 :: r4 =>
                              if c2 =? 125 then Some (PyDict (set k v acc), r4)
                              else if c2 =? 44
                              then parse_members n' (set k v acc) (skip_ws r4)
                              else None
                          | [] => None
                          end
                      end
                    else None
                | [] => None
                end
            end
          else None
      | [] => None
      end
  end.

End Containers.

Definition constant (text : string) (v : PyVal) (s : pystr) : option (PyVal * pystr) :=
  match strip_prefix (of_string text) s with
  | Some r => Some (v, r)
  | None => None
  end.

Definition orelse {A : Type} (a b : option A) : option A :=
  match a with Some _ => a | None => b end.

(** [scan_once]: one JSON value at the head of [s].  [fuel] bounds the
    nesting and the number of members of a container; every level of
    nesting and every member takes a character, so any fuel above the
    length of the text gives the same result. *)
Fixpoint scan_once (fuel : nat) (s : pystr) : option (PyVal * pystr) :=
  match fuel with
  | O => None
  | S fuel' =>
      match s with
      | [] => None
      | c :: r =>
          if c =? 34 then
            match scanstring r with
            | Some (t, r') => Some (PyStr t, r')
            | None => None
            end
          else if c =? 123 then
            match skip_ws r with
            | c' :: r' =>
                if c' =? 125 then Some (PyDict [], r')
                else parse_members (scan_once fuel') fuel' [] (skip_ws r)
            | [] => None
            end
          else if c =? 91 then
            match skip_ws r with
            | c' :: r' =>
                if c' =? 93 then Some (PyList [], r')
                else parse_elements (scan_once fuel') fuel' [] (skip_ws r)
            | [] => None
            end
          else
            orelse (constant "null" PyNone s)
           (orelse (constant "true" (PyBool true) s)
           (orelse (constant "false" (PyBool false) s)
           (orelse (constant "NaN" (PyFloat (of_string "NaN")) s)
           (orelse (constant "Infinity" (PyFloat (of_string "Infinity")) s)
           (orelse (constant "-Infinity" (PyFloat (of_string "-Infinity")) s)
                   (match_number s))))))
      end
  end.

(** [json.loads(s)]: [None] stands for JSONDecodeError. *)
Definition loads (s : pystr) : option PyVal :=
  match s with
  | 65279 :: _ => None
  | _ =>
      match scan_once (S (List.length s)) (skip_ws s) with
      | Some (v, r) => match skip_ws r with [] => Some v | _ => None end
      | None => None
      end
  end.

(** *** Encoder *)

Definition newline_indent (level : nat) : pystr :=
  10 :: repeat 32 (4 * level)%nat.

Definition bind_opt {A B : Type} (m : option A) (k : A -> option B) : option B :=
  match m with Some a => k a | None => None end.

(** [json.dumps(v, indent=4)] at nesting [level]; [None] when the value
    holds a float, whose [repr] is outside the model. *)
Fixpoint encode (level : nat) (v : PyVal) {struct v} : option pystr :=
  match v with
  | PyNone => Some (of_string "null")
  | PyBool true => Some (of_string "true")
  | PyBool false => Some (of_string "false")
  | PyInt z => Some (int_repr z)
  | PyFloat _ => None
  | PyStr s => Some (encode_str s)
  | PyList [] => Some [91; 93]
  | PyList (x :: xs) =>
      let fix items (l : list PyVal) : option pystr :=
        match l with
        | [] => Some []
        | y :: ys =>
            bind_opt (encode (S level) y) (fun e =>
            bind_opt (items ys) (fun r =>
            Some (44 :: newline_indent (S level) ++ e ++ r)))
        end in
      bind_opt (encode (S level) x) (fun e =>
      bind_opt (items xs) (fun r =>
      Some (91 :: newline_indent (S level) ++ e ++ r ++ newline_indent level ++ [93])))
  | PyDict [] => Some [123; 125]
  | PyDict ((k, x) :: xs) =>
      let fix items (l : list (pystr * PyVal)) : option pystr :=
        match l with
        | [] => Some []
        | (k', y) :: ys =>
            bind_opt (encode (S level) y) (fun e =>
            bind_opt (items ys) (fun r =>
            Some (44 :: newline_indent (S level) ++ encode_str k' ++ [58; 32] ++ e ++ r)))
        end in
      bind_opt (encode (S level) x) (fun e =>
      bind_opt (items xs) (fun r =>
      Some (123 :: newline_indent (S level) ++ encode_str k ++ [58; 32] ++ e ++ r
              ++ newline_indent level ++ [125])))
  end.

Definition dumps (v : PyVal) : option pystr := encode 0 v.

End Json.

(** ** Files

    What [open] and [read] find at a path: no file, a text file, or an
    entry that cannot be read as text (a directory, missing permission,
    bytes that are not UTF-8); and whether the path can be opened for
    writing (it cannot when it is empty, names a directory, or
    permission is missing). *)

Inductive FileNode : Type :=
| NoFile
| Regular (text : pystr)
| Unreadable.

Record FileSystem : Type := {
  node : pystr -> FileNode;
  can_write : pystr -> bool
}.

Definition write (fs : FileSystem) (file text : pystr) : FileSystem :=
  {| node := fun p => if str_eqb p file then Regular text else node fs p;
     can_write := can_write fs |}.

(** [load_data(self, file)] *)
Definition load_data (fs : FileSystem) (self : InventorySystem) (file : pystr) : Step :=
  match node fs file with
  | Regular text =>
      match Json.loads text with
      | Some v => Ok ({| stock_data := v |}, [Log INFO (DataLoaded file)])
      | None => Ok ({| stock_data := PyDict [] |}, [Log ERROR (ErrorDecodingJSON file)])
      end
  | NoFile => Ok ({| stock_data := PyDict [] |}, [Log WARNING (FileNotFound file)])
  | Unreadable => Raise PermissionError
  end.

(** [save_data(self, file)]: the object is not changed, the result is
    the file system after the call. *)
Definition save_data (fs : FileSystem) (self : InventorySystem) (file : pystr)
  : Outcome (FileSystem * list LogRecord) :=
  if can_write fs file then
    match Json.dumps (stock_data self) with
    | Some text => Ok (write fs file text, [Log INFO (DataSaved file)])
    | None => Beyond
    end
  else Ok (fs, [Log ERROR (ErrorSaving file)]).

(** ** Sequences of calls *)

Inductive Op : Type :=
| OpAdd (item qty : PyVal)
| OpRemove (item qty : PyVal)
| OpLoad (file : pystr).

Definition step (fs : FileSystem) (self : InventorySystem) (op : Op) : Step :=
  match op with
  | OpAdd item qty => add_item self item qty
  | OpRemove item qty => remove_item self item qty
  | OpLoad file => load_data fs self file
  end.

Fixpoint run (fs : FileSystem) (self : InventorySystem) (ops : list Op)
  : Outcome InventorySystem :=
  match ops with
  | [] => Ok self
  | op :: rest => r <- step fs self op ;; run fs (fst r) rest
  end.

(** ** Stock Maps *)

Definition is_quantity (v : PyVal) : bool :=
  match v with PyInt _ => true | _ => false end.

Definition is_positive (v : PyVal) : bool :=
  match v with PyInt z => 0 <? z | _ => false end.

(** A Stock Map: a dict from item names to integers. *)
Definition stock_map (d : dict) : bool :=
  distinct (keys d) && forallb (fun kv => is_quantity (snd kv)) d.

(** A Stock Map none of whose quantities is zero or negative. *)
Definition positive_stock (d : dict) : bool :=
  distinct (keys d) && forallb (fun kv => is_positive (snd kv)) d.

Definition ledger (d : dict) : InventorySystem := {| stock_data := PyDict d |}.

(** The quantity a Stock Map holds for a name, 0 for an absent name. *)
Definition quantity (d : dict) (name : pystr) : Z :=
  match lookup name d with Some (PyInt z) => z | _ => 0 end.

(** The quantity below [threshold] test on an entry of a Stock Map. *)
Definition below (threshold : Z) (kv : pystr * PyVal) : bool :=
  match snd kv with PyInt z => z <? threshold | _ => false end.

(** The text [dumps] writes for a member of a Stock Map, and for the
    members after the first. *)
Definition member_text (kv : pystr * PyVal) : pystr :=
  Json.encode_str (fst kv) ++ [58; 32]%N
    ++ match snd kv with PyInt z => Json.int_repr z | _ => [] end.

Fixpoint more_members (l : dict) : pystr :=
  match l with
  | [] => []
  | kv :: l' => 44%N :: Json.newline_indent 1 ++ member_text kv ++ more_members l'
  end.

(** A name that [loads] gives back as [dumps] took it: valid code
    points, and no high surrogate directly followed by a low surrogate
    (the encoder writes each as its own [\uXXXX], the decoder joins
    the two into one code point). *)
Fixpoint plain_text (s : pystr) : bool :=
  match s with
  | [] => true
  | c :: r =>
      (c <? 1114112)%N
      && negb (Json.is_high_surrogate c
               && match r with c' :: _ => Json.is_low_surrogate c' | [] => false end)
      && plain_text r
  end.

(** The calls that keep quantities positive: an [add_item] whose
    quantity, when int-typed, is positive; any [remove_item]; a
    [load_data] whose file is missing, is not JSON, or is a JSON object
    of positive integers. *)
Definition benign (fs : FileSystem) (op : Op) : bool :=
  match op with
  | OpAdd _ qty => match int_value qty with Some n => 0 <? n | None => true end
  | OpRemove _ _ => true
  | OpLoad file =>
      match node fs file with
      | NoFile => true
      | Regular text =>
          match Json.loads text with
          | None => true
          | Some (PyDict d) => positive_stock d
          | Some _ => false
          end
      | Unreadable => false
      end
  end.

(** ** Example data *)

Definition apple : pystr := of_string "apple".
Definition banana : pystr := of_string "banana".

(** The Stock Map [{"apple": 10, "banana": 2}]. *)
Definition fruit : dict := [(apple, PyInt 10); (banana, PyInt 2)].

Definition inventory_json : pystr := of_string "inventory.json".
Definition broken_json : pystr := of_string "broken.json".
Definition stale_json : pystr := of_string "stale.json".
Definition pear : pystr := of_string "pear".

(** A disk with [broken.json] holding [{oops] and [stale.json] holding
    [{"pear": 0}]; the empty path cannot be opened. *)
Definition disk : FileSystem :=
  {| node := fun p =>
       if str_eqb p broken_json then Regular (of_string "{oops")
       else if str_eqb p stale_json
            then Regular ([123; 34] ++ pear ++ [34] ++ of_string ": 0}")%N
            else NoFile;
     can_write := fun p => negb (str_eqb p []) |}.

(** ** Printing and [main]

    [print_data] and [main] write to the standard output.  A printed
    line is kept as the call site with the values formatted into it, as
    for the log records.  A program is what it logged and printed so
    far, together with its result or the exception that stopped it. *)

Inductive Printed : Type :=
| AppleStock (qty : PyVal)
| LowItems (items : list PyVal)
| ReportHeader
| ReportEmpty
| ReportLine (item : pystr) (qty : PyVal)
| ReportFooter.

Record Trace : Type := {
  logged : list LogRecord;
  printed : list Printed
}.

Definition silent : Trace := {| logged := []; printed := [] |}.

Definition trace_app (a b : Trace) : Trace :=
  {| logged := logged a ++ logged b; printed := printed a ++ printed b |}.

Definition Prog (A : Type) : Type := (Trace * Outcome A)%type.

Definition andthen {A B : Type} (m : Prog A) (k : A -> Prog B) : Prog B :=
  match m with
  | (t, Ok a) => let (t', r) := k a in (trace_app t t', r)
  | (t, Raise e) => (t, Raise e)
  | (t, Beyond) => (t, Beyond)
  end.

Notation "x <~ m ;; k" := (andthen m (fun x => k))
  (at level 61, m at next level, right associativity).

(** A method call: its log records go to the trace. *)
Definition call {A : Type} (s : Outcome (A * list LogRecord)) : Prog A :=
  match s with
  | Ok (a, logs) => ({| logged := logs; printed := [] |}, Ok a)
  | Raise e => (silent, Raise e)
  | Beyond => (silent, Beyond)
  end.

(** A call that logs and prints nothing. *)
Definition quiet {A : Type} (o : Outcome A) : Prog A := (silent, o).

(** [print(...)] *)
Definition print (p : Printed) : Prog unit :=
  ({| logged := []; printed := [p] |}, Ok tt).

(** [bool(v)]: the truth value of a float needs its value. *)
Definition truth (v : PyVal) : Outcome bool :=
  match v with
  | PyNone => Ok false
  | PyBool b => Ok b
  | PyInt z => Ok (negb (z =? 0))
  | PyFloat _ => Beyond
  | PyStr s => Ok (match s with [] => false | _ => true end)
  | PyList l => Ok (match l with [] => false | _ => true end)
  | PyDict d => Ok (match d with [] => false | _ => true end)
  end.

(** [o.items()] *)
Definition items (o : PyVal) : Outcome (list (pystr * PyVal)) :=
  match o with
  | PyDict d => Ok d
  | _ => Raise AttributeError
  end.

(** The loop [for item, qty in ...: print(...)]. *)
Fixpoint print_lines (l : list (pystr * PyVal)) : Prog unit :=
  match l with
  | [] => quiet (Ok tt)
  | (item, qty) :: rest =>
      _ <~ print (ReportLine item qty) ;;
      print_lines rest
  end.

(** [print_data(self)] *)
Definition print_data (self : InventorySystem) : Prog unit :=
  _ <~ print ReportHeader ;;
  nonempty <~ quiet (truth (stock_data self)) ;;
  _ <~ (if negb nonempty then print ReportEmpty else quiet (Ok tt)) ;;
  entries <~ quiet (items (stock_data self)) ;;
  _ <~ print_lines entries ;;
  print ReportFooter.

(** The default arguments of [load_data], [save_data] and
    [check_low_items]. *)
Definition default_file : pystr := of_string "inventory.json".
Definition default_threshold : Z := 5.

(** [main()], on the files it finds; its result is the files it leaves.
    [logging.basicConfig] only sets how the records are shown. *)
Definition main (fs : FileSystem) : Prog FileSystem :=
  inventory <~ quiet (Ok init) ;;
  inventory <~ call (load_data fs inventory default_file) ;;
  inventory <~ call (add_item inventory (PyStr (of_string "apple")) (PyInt 10)) ;;
  inventory <~ call (add_item inventory (PyStr (of_string "banana")) (PyInt 2)) ;;
  inventory <~ call (add_item inventory (PyInt 123) (PyStr (of_string "ten"))) ;;
  inventory <~ call (remove_item inventory (PyStr (of_string "apple")) (PyInt 3)) ;;
  inventory <~ call (remove_item inventory (PyStr (of_string "orange")) (PyInt 1)) ;;
  stock <~ quiet (get_qty inventory (PyStr (of_string "apple"))) ;;
  _ <~ print (AppleStock stock) ;;
  low <~ quiet (check_low_items inventory default_threshold) ;;
  _ <~ print (LowItems low) ;;
  fs' <~ call (save_data fs inventory default_file) ;;
  inventory <~ call (load_data fs' inventory default_file) ;;
  _ <~ print_data inventory ;;
  quiet (Ok fs').

(** ** Further predicates *)

(** A text of ASCII characters only. *)
Definition ascii_text (s : pystr) : bool := forallb (fun c => (c <? 128)%N) s.

(** A value that is not a dict. *)
Definition not_dict (v : PyVal) : bool :=
  match v with PyDict _ => false | _ => true end.

(** A dict value that is neither int-typed nor a float: comparing it
    with an int raises TypeError. *)
Definition not_number (v : PyVal) : bool :=
  match v with
  | PyInt _ | PyBool _ | PyFloat _ => false
  | _ => true
  end.

(** A dict whose values are all int-typed. *)
Definition int_values (d : dict) : bool :=
  forallb (fun kv => isinstance_int (snd kv)) d.

(** The text [dumps] writes for a value (empty when it holds a float). *)
Definition text_of (v : PyVal) : pystr :=
  match Json.dumps v with Some text => text | None => [] end.

(** What [main] leaves on an empty ledger: [{"apple": 7, "banana": 2}]. *)
Definition harvest : dict :=
  [(of_string "apple", PyInt 7); (of_string "banana", PyInt 2)].

(** The record [load_data] logs when it resets the Stock Map. *)
Definition reset_record (fs : FileSystem) (file : pystr) : LogRecord :=
  match node fs file with
  | NoFile => Log WARNING (FileNotFound file)
  | _ => Log ERROR (ErrorDecodingJSON file)
  end.

(** The records of the five calls of [main] between its [load_data] and
    its [save_data], on an empty ledger. *)
Definition demo_records : list LogRecord :=
  [Log INFO (Added (PyInt 10) (PyStr (of_string "apple")));
   Log INFO (Added (PyInt 2) (PyStr (of_string "banana")));
   Log WARNING InvalidItemName;
   Log WARNING (RemoveNonExistent (PyStr (of_string "orange")))].

(** * Properties *)

(** ** Dictionaries *)

Section DictFacts.

Lemma str_eqb_refl (a : pystr) : str_eqb a a = true.
Proof.
  induction a as [|x a IH]; simpl; [reflexivity|].
  now rewrite N.eqb_refl.
Qed.

Lemma str_eqb_eq (a b : pystr) : str_eqb a b = true <-> a = b.
Proof.
  split.
  - revert b. induction a as [|x a IH]; intros [|y b]; simpl; try easy.
    intros H. apply andb_true_iff in H as [Hx Ha].
    apply N.eqb_eq in Hx. apply IH in Ha. congruence.
  - intros ->. apply str_eqb_refl.
Qed.

Lemma str_eqb_neq (a b : pystr) : str_eqb a b = false <-> a <> b.
Proof.
  rewrite <- str_eqb_eq. destruct (str_eqb a b); split; congruence.
Qed.

Lemma str_eqb_sym (a b : pystr) : str_eqb a b = str_eqb b a.
Proof.
  destruct (str_eqb b a) eqn:E.
  - apply str_eqb_eq in E. subst. apply str_eqb_refl.
  - apply str_eqb_neq. apply str_eqb_neq in E. congruence.
Qed.

Lemma lookup_set_same k v d : lookup k (set k v d) = Some v.
Proof.
  induction d as [|[k' v'] d IH]; simpl.
  - now rewrite str_eqb_refl.
  - destruct (str_eqb k k') eqn:E; simpl; rewrite E; auto.
Qed.

Lemma lookup_set_other k k' v d :
  k <> k' -> lookup k' (set k v d) = lookup k' d.
Proof.
  intros Hne. induction d as [|[k0 v0] d IH]; simpl.
  - apply not_eq_sym in Hne. apply str_eqb_neq in Hne. now rewrite Hne.
  - destruct (str_eqb k k0) eqn:E; simpl; [|now rewrite IH].
    apply str_eqb_eq in E. subst k0.
    apply not_eq_sym in Hne. apply str_eqb_neq in Hne. now rewrite Hne.
Qed.

Lemma lookup_del_same k d : lookup k (del k d) = None.
Proof.
  unfold del. induction d as [|[k' v'] d IH]; simpl; [reflexivity|].
  destruct (str_eqb k k') eqn:E; simpl; [assumption|].
  now rewrite E.
Qed.

Lemma lookup_del_other k k' d :
  k <> k' -> lookup k' (del k d) = lookup k' d.
Proof.
  intros Hne. unfold del. induction d as [|[k0 v0] d IH]; simpl; [reflexivity|].
  destruct (str_eqb k k0) eqn:E; simpl.
  - apply str_eqb_eq in E. subst k0.
    apply not_eq_sym in Hne. apply str_eqb_neq in Hne. now rewrite Hne.
  - now rewrite IH.
Qed.

Lemma del_set k v d : del k (set k v d) = del k d.
Proof.
  unfold del. induction d as [|[k' v'] d IH]; simpl.
  - now rewrite str_eqb_refl.
  - destruct (str_eqb k k') eqn:E; simpl; rewrite E; simpl; congruence.
Qed.

Lemma mem_keys_lookup k d : mem k (keys d) = false <-> lookup k d = None.
Proof.
  induction d as [|[k' v'] d IH]; simpl; [tauto|].
  destruct (str_eqb k k'); simpl; [split; discriminate | assumption].
Qed.

Lemma mem_In k l : mem k l = true <-> In k l.
Proof.
  induction l as [|k' l IH]; simpl; [split; [discriminate | tauto]|].
  rewrite orb_true_iff, IH, str_eqb_eq. split; intros [H|H]; auto.
Qed.

Lemma keys_del k d : keys (del k d) = filter (fun k' => negb (str_eqb k k')) (keys d).
Proof.
  unfold del, keys. induction d as [|[k' v'] d IH]; simpl; [reflexivity|].
  destruct (str_eqb k k'); simpl; congruence.
Qed.

Lemma mem_filter k (f : pystr -> bool) l : mem k (filter f l) = true -> mem k l = true.
Proof.
  induction l as [|k' l IH]; simpl; [easy|].
  destruct (f k'); simpl; rewrite !orb_true_iff; tauto.
Qed.

Lemma distinct_filter (f : pystr -> bool) l :
  distinct l = true -> distinct (filter f l) = true.
Proof.
  induction l as [|k l IH]; simpl; [easy|].
  intros H. apply andb_true_iff in H as [Hk Hl].
  destruct (f k); simpl; auto.
  rewrite IH by assumption. rewrite andb_true_r.
  destruct (mem k (filter f l)) eqn:E; [|reflexivity].
  apply mem_filter in E. now rewrite E in Hk.
Qed.

Lemma distinct_del k d : distinct (keys d) = true -> distinct (keys (del k d)) = true.
Proof. rewrite keys_del. apply distinct_filter. Qed.

Lemma mem_keys_set k0 k v d :
  mem k0 (keys (set k v d)) = mem k0 (keys d) || str_eqb k0 k.
Proof.
  induction d as [|[k' v'] d IH]; simpl; [now rewrite orb_false_r|].
  destruct (str_eqb k k') eqn:E; simpl.
  - apply str_eqb_eq in E. subst k'.
    destruct (str_eqb k0 k); simpl; [reflexivity | now rewrite orb_false_r].
  - rewrite IH. now rewrite orb_assoc.
Qed.

Lemma distinct_set k v d : distinct (keys d) = true -> distinct (keys (set k v d)) = true.
Proof.
  induction d as [|[k' v'] d IH]; simpl; [reflexivity|].
  intros H. apply andb_true_iff in H as [Hk Hd].
  destruct (str_eqb k k') eqn:E; simpl.
  - now rewrite Hk, Hd.
  - rewrite IH by assumption. rewrite mem_keys_set.
    apply negb_true_iff in Hk. rewrite Hk. simpl.
    rewrite str_eqb_sym, E. reflexivity.
Qed.

Lemma forallb_set (P : PyVal -> bool) k v d :
  P v = true ->
  forallb (fun kv => P (snd kv)) d = true ->
  forallb (fun kv => P (snd kv)) (set k v d) = true.
Proof.
  intros Hv. induction d as [|[k' v'] d IH]; simpl.
  - now rewrite Hv.
  - intros H. apply andb_true_iff in H as [H1 H2].
    destruct (str_eqb k k'); simpl.
    + now rewrite Hv, H2.
    + now rewrite H1, IH.
Qed.

Lemma forallb_del (P : PyVal -> bool) k d :
  forallb (fun kv => P (snd kv)) d = true ->
  forallb (fun kv => P (snd kv)) (del k d) = true.
Proof.
  unfold del. induction d as [|[k' v'] d IH]; simpl; [reflexivity|].
  intros H. apply andb_true_iff in H as [H1 H2].
  destruct (str_eqb k k'); simpl; auto.
  now rewrite H1, IH.
Qed.

Lemma lookup_forallb (P : PyVal -> bool) k v d :
  forallb (fun kv => P (snd kv)) d = true -> lookup k d = Some v -> P v = true.
Proof.
  induction d as [|[k' v'] d IH]; simpl; [discriminate|].
  intros H. apply andb_true_iff in H as [H1 H2].
  destruct (str_eqb k k'); [congruence | auto].
Qed.

Lemma lookup_In k v d :
  distinct (keys d) = true -> In (k, v) d -> lookup k d = Some v.
Proof.
  induction d as [|[k' v'] d IH]; simpl; [easy|].
  intros H [Heq|Hin]; apply andb_true_iff in H as [Hk Hd].
  - inversion Heq; subst. now rewrite str_eqb_refl.
  - destruct (str_eqb k k') eqn:E; [|auto].
    apply str_eqb_eq in E. subst k'.
    apply negb_true_iff in Hk. apply mem_keys_lookup in Hk.
    rewrite (IH Hd Hin) in Hk. discriminate.
Qed.

Lemma lookup_In_keys k d : lookup k d <> None <-> In k (keys d).
Proof.
  rewrite <- mem_In. destruct (mem k (keys d)) eqn:E.
  - split; [reflexivity|]. intros _ H. apply mem_keys_lookup in H. congruence.
  - apply mem_keys_lookup in E. rewrite E. split; [congruence | discriminate].
Qed.

End DictFacts.

(** ** The methods on a Stock Map *)

Section Methods.

Lemma int_value_isinstance qty n : int_value qty = Some n -> isinstance_int qty = true.
Proof. destruct qty as [| [|] | | | | |]; simpl; congruence. Qed.

Lemma isinstance_int_value qty : isinstance_int qty = true -> exists n, int_value qty = Some n.
Proof. destruct qty as [| [|] | | | | |]; simpl; try discriminate; eauto. Qed.

Lemma stock_map_lookup d k v :
  stock_map d = true -> lookup k d = Some v -> exists z, v = PyInt z.
Proof.
  intros H Hl. apply andb_true_iff in H as [_ H].
  pose proof (lookup_forallb is_quantity k v d H Hl) as Hq.
  destruct v; try discriminate. eauto.
Qed.

Lemma stock_map_set d k z : stock_map d = true -> stock_map (set k (PyInt z) d) = true.
Proof.
  intros H. apply andb_true_iff in H as [H1 H2]. apply andb_true_iff. split.
  - now apply distinct_set.
  - now apply (forallb_set is_quantity).
Qed.

Lemma stock_map_del d k : stock_map d = true -> stock_map (del k d) = true.
Proof.
  intros H. apply andb_true_iff in H as [H1 H2]. apply andb_true_iff. split.
  - now apply distinct_del.
  - now apply (forallb_del is_quantity).
Qed.

(** A valid call of [add_item] on a Stock Map stores the sum. *)
Lemma add_item_valid d name qty n :
  stock_map d = true -> name <> default_name -> int_value qty = Some n ->
  add_item (ledger d) (PyStr name) qty
  = Ok (ledger (set name (PyInt (quantity d name + n)) d),
        [Log INFO (Added qty (PyStr name))]).
Proof.
  intros Hd Hname Hq. unfold add_item. simpl.
  apply str_eqb_neq in Hname. rewrite Hname.
  rewrite (int_value_isinstance _ _ Hq). simpl.
  unfold quantity. destruct (lookup name d) as [v|] eqn:El.
  - destruct (stock_map_lookup _ _ _ Hd El) as [z ->].
    unfold add, arith. simpl. now rewrite Hq.
  - unfold add, arith. simpl. now rewrite Hq.
Qed.

(** [remove_item] on a present name: the difference is stored, and the
    entry is deleted when the difference is zero or negative. *)
Lemma remove_item_present d name v qty n :
  lookup name d = Some (PyInt v) -> int_value qty = Some n ->
  remove_item (ledger d) (PyStr name) qty
  = if v - n <=? 0
    then Ok (ledger (del name d), [Log INFO (RemovedFromStock (PyStr name))])
    else Ok (ledger (set name (PyInt (v - n)) d), []).
Proof.
  intros Hl Hq. unfold remove_item. simpl.
  rewrite (int_value_isinstance _ _ Hq). simpl. rewrite Hl. simpl.
  unfold sub, arith. simpl. rewrite Hq. simpl.
  rewrite lookup_set_same. simpl. unfold le_int, cmp_int. simpl.
  destruct (v - n <=? 0); simpl; [|reflexivity].
  now rewrite del_set.
Qed.

Lemma remove_missing_name d name qty :
  isinstance_int qty = true -> lookup name d = None ->
  remove_item (ledger d) (PyStr name) qty
  = Ok (ledger d, [Log WARNING (RemoveNonExistent (PyStr name))]).
Proof.
  intros Hq Hl. unfold remove_item. simpl. rewrite Hq. simpl. now rewrite Hl.
Qed.

Lemma comprehension_stock d t (l : dict) :
  stock_map d = true -> (forall kv, In kv l -> In kv d) ->
  comprehension (PyDict d) t (map PyStr (keys l))
  = Ok (map PyStr (keys (filter (below t) l))).
Proof.
  intros Hd. pose proof Hd as Hd'. apply andb_true_iff in Hd' as [Hk Hv].
  induction l as [|[k v] l IH]; intros Hsub; simpl; [reflexivity|].
  assert (Hin : In (k, v) d) by (apply Hsub; now left).
  rewrite (lookup_In _ _ _ Hk Hin). simpl.
  destruct (stock_map_lookup _ _ _ Hd (lookup_In _ _ _ Hk Hin)) as [z ->].
  unfold lt_int, cmp_int. simpl.
  rewrite IH by (intros kv H; apply Hsub; now right). simpl.
  change (below t (k, PyInt z)) with (z <? t).
  destruct (z <? t); reflexivity.
Qed.

Lemma check_low_items_stock d t :
  stock_map d = true ->
  check_low_items (ledger d) t = Ok (map PyStr (keys (filter (below t) d))).
Proof.
  intros Hd. unfold check_low_items. simpl. now apply comprehension_stock.
Qed.

Lemma In_keys_filter_below t name d :
  distinct (keys d) = true ->
  In name (keys (filter (below t) d)) <->
  exists z, lookup name d = Some (PyInt z) /\ z < t.
Proof.
  intros Hk. unfold keys. rewrite in_map_iff. split.
  - intros [[k v] [Hfst Hin]]. simpl in Hfst. subst k.
    apply filter_In in Hin as [Hin Hb]. unfold below in Hb. simpl in Hb.
    destruct v; try discriminate. exists z. split.
    + now apply lookup_In.
    + now apply Z.ltb_lt.
  - intros [z [Hl Hz]]. exists (name, PyInt z). split; [reflexivity|].
    apply filter_In. split.
    + clear Hk. induction d as [|[k' v'] d IH]; simpl in *; [discriminate|].
      destruct (str_eqb name k') eqn:E.
      * apply str_eqb_eq in E. left. congruence.
      * right. auto.
    + unfold below. simpl. now apply Z.ltb_lt.
Qed.

Lemma In_map_PyStr name l : In (PyStr name) (map PyStr l) <-> In name l.
Proof.
  rewrite in_map_iff. split.
  - intros [x [Hx Hin]]. congruence.
  - intros H. eauto.
Qed.

End Methods.


(** ** Sequences of calls on a positive Stock Map *)

Section Invariant.

Lemma positive_stock_is_stock_map d : positive_stock d = true -> stock_map d = true.
Proof.
  unfold positive_stock, stock_map. intros H.
  apply andb_true_iff in H as [H1 H2]. rewrite H1. simpl.
  rewrite forallb_forall in *. intros kv Hin. specialize (H2 kv Hin).
  destruct (snd kv); simpl in *; congruence.
Qed.

Lemma positive_stock_lookup d name v :
  positive_stock d = true -> lookup name d = Some v -> exists z, v = PyInt z /\ 0 < z.
Proof.
  intros H Hl. apply andb_true_iff in H as [_ H].
  pose proof (lookup_forallb is_positive name v d H Hl) as Hp.
  destruct v; try discriminate. exists z. split; [reflexivity|].
  now apply Z.ltb_lt.
Qed.

Lemma positive_stock_set d k z :
  0 < z -> positive_stock d = true -> positive_stock (set k (PyInt z) d) = true.
Proof.
  intros Hz H. apply andb_true_iff in H as [H1 H2]. apply andb_true_iff. split.
  - now apply distinct_set.
  - apply (forallb_set is_positive); [|assumption]. now apply Z.ltb_lt.
Qed.

Lemma positive_stock_del d k : positive_stock d = true -> positive_stock (del k d) = true.
Proof.
  intros H. apply andb_true_iff in H as [H1 H2]. apply andb_true_iff. split.
  - now apply distinct_del.
  - now apply (forallb_del is_positive).
Qed.

Lemma quantity_nonneg d name : positive_stock d = true -> 0 <= quantity d name.
Proof.
  intros H. unfold quantity. destruct (lookup name d) as [v|] eqn:E; [|lia].
  destruct (positive_stock_lookup _ _ _ H E) as [z [-> Hz]]. lia.
Qed.

Lemma add_item_benign d item qty :
  positive_stock d = true ->
  match int_value qty with Some n => 0 <? n | None => true end = true ->
  exists d' logs,
    add_item (ledger d) item qty = Ok (ledger d', logs) /\ positive_stock d' = true.
Proof.
  intros Hd Hq. unfold add_item.
  destruct (negb (isinstance_str item) || eq_str item default_name) eqn:E1;
    [now eauto|].
  destruct (negb (isinstance_int qty)) eqn:E2; [now eauto|].
  apply orb_false_iff in E1 as [E1 E3].
  destruct item; try discriminate. simpl in E3. apply str_eqb_neq in E3.
  apply negb_false_iff in E2. destruct (isinstance_int_value _ E2) as [n Hn].
  rewrite Hn in Hq. apply Z.ltb_lt in Hq.
  pose proof (add_item_valid d s qty n (positive_stock_is_stock_map _ Hd) E3 Hn) as H.
  unfold add_item in H. simpl in H.
  apply str_eqb_neq in E3. rewrite E3, E2 in H. simpl in H.
  simpl. rewrite H. do 2 eexists. split; [reflexivity|].
  apply positive_stock_set; [|assumption].
  pose proof (quantity_nonneg d s Hd). lia.
Qed.

Lemma remove_item_benign d item qty :
  positive_stock d = true ->
  exists d' logs,
    remove_item (ledger d) item qty = Ok (ledger d', logs) /\ positive_stock d' = true.
Proof.
  intros Hd.
  destruct (negb (isinstance_str item) || negb (isinstance_int qty)) eqn:E.
  - unfold remove_item. rewrite E. now eauto.
  - apply orb_false_iff in E as [E1 E2].
    destruct item; try discriminate.
    apply negb_false_iff in E2. destruct (isinstance_int_value _ E2) as [n Hn].
    destruct (lookup s d) as [v|] eqn:El.
    + destruct (positive_stock_lookup _ _ _ Hd El) as [z [-> Hz]].
      rewrite (remove_item_present d s z qty n El Hn).
      destruct (z - n <=? 0) eqn:Ez; do 2 eexists; (split; [reflexivity|]).
      * now apply positive_stock_del.
      * apply positive_stock_set; [|assumption]. apply Z.leb_gt in Ez. lia.
    + rewrite (remove_missing_name d s qty E2 El). now eauto.
Qed.

Lemma load_data_benign fs d file :
  benign fs (OpLoad file) = true ->
  exists d' logs,
    load_data fs (ledger d) file = Ok (ledger d', logs) /\ positive_stock d' = true.
Proof.
  unfold benign, load_data. destruct (node fs file) as [|text|]; try discriminate.
  - intros _. exists [], [Log WARNING (FileNotFound file)]. now split.
  - destruct (Json.loads text) as [v|].
    + destruct v; try discriminate. intros H. do 2 eexists. split; [reflexivity|].
      assumption.
    + intros _. exists [], [Log ERROR (ErrorDecodingJSON file)]. now split.
Qed.

Lemma run_benign fs ops : forall d,
  positive_stock d = true ->
  forallb (benign fs) ops = true ->
  exists d', run fs (ledger d) ops = Ok (ledger d') /\ positive_stock d' = true.
Proof.
  induction ops as [|op ops IH]; intros d Hd Hops; simpl.
  - eauto.
  - simpl in Hops. apply andb_true_iff in Hops as [Hop Hops].
    assert (Hstep : exists d1 logs,
               step fs (ledger d) op = Ok (ledger d1, logs)
               /\ positive_stock d1 = true).
    { destruct op as [item qty | item qty | file]; simpl.
      - now apply add_item_benign.
      - now apply remove_item_benign.
      - now apply load_data_benign. }
    destruct Hstep as [d1 [logs [Hstep Hd1]]].
    rewrite Hstep. simpl. now apply IH.
Qed.

End Invariant.

(** The run of [main] after its first [load_data], on an empty ledger:
    two additions, a rejected addition, a removal and a removal of an
    absent item. *)
Example demo_run :
  exists self,
    run disk init [OpAdd (PyStr apple) (PyInt 10); OpAdd (PyStr banana) (PyInt 2);
                   OpAdd (PyInt 123) (PyStr (of_string "ten"));
                   OpRemove (PyStr apple) (PyInt 3);
                   OpRemove (PyStr (of_string "orange")) (PyInt 1)]
    = Ok self
    /\ get_qty self (PyStr apple) = Ok (PyInt 7)
    /\ get_qty self (PyStr banana) = Ok (PyInt 2)
    /\ check_low_items self 5 = Ok [PyStr banana].
Proof. eexists. repeat split. Qed.

(** ** The JSON codec *)

Section Strings.

Local Open Scope N_scope.
Import Json.

Lemma hex_value_digit d : d < 16 -> hex_value (hex_digit d) = Some d.
Proof.
  intros H. destruct d as [|p]; [reflexivity|].
  do 4 (destruct p as [p|p|]; try reflexivity); exfalso; lia.
Qed.

Lemma hex4_digits n :
  n < 65536 ->
  hex4 (hex_digit (n / 4096)) (hex_digit ((n / 256) mod 16))
       (hex_digit ((n / 16) mod 16)) (hex_digit (n mod 16)) = Some n.
Proof.
  intros H. unfold hex4.
  rewrite !hex_value_digit by
    (try (apply N.mod_lt; discriminate); apply N.Div0.div_lt_upper_bound; lia).
  f_equal.
  replace (n / 4096) with (n / 16 / 16 / 16) by (now rewrite !N.Div0.div_div).
  replace (n / 256) with (n / 16 / 16) by (now rewrite !N.Div0.div_div).
  pose proof (N.div_mod n 16). pose proof (N.div_mod (n / 16) 16).
  pose proof (N.div_mod (n / 16 / 16) 16). lia.
Qed.

Lemma scanstring_u_unfold h1 h2 h3 h4 r2 :
  scanstring (92 :: 117 :: h1 :: h2 :: h3 :: h4 :: r2)
  = match hex4 h1 h2 h3 h4 with
    | None => None
    | Some u =>
        match r2 with
        | b :: u' :: r3 =>
            if is_high_surrogate u && (b =? 92) && (u' =? 117) then
              match r3 with
              | k1 :: k2 :: k3 :: k4 :: r4 =>
                  match hex4 k1 k2 k3 k4 with
                  | None => None
                  | Some u2 =>
                      if is_low_surrogate u2
                      then cons_char (join_surrogates u u2) (scanstring r4)
                      else cons_char u (scanstring r2)
                  end
              | _ => None
              end
            else cons_char u (scanstring r2)
        | _ => cons_char u (scanstring r2)
        end
    end.
Proof. reflexivity. Qed.

(** The escape [\uXXXX] is read back, whatever follows, unless its value
    is a high surrogate and a low one follows. *)
Lemma scanstring_u_escape n r2 :
  n < 65536 ->
  (is_high_surrogate n = true -> no_low_escape r2 = true) ->
  scanstring (u_escape n ++ r2) = cons_char n (scanstring r2).
Proof.
  intros Hn Hpair. unfold u_escape. cbn [app].
  rewrite scanstring_u_unfold, (hex4_digits n Hn).
  destruct r2 as [|b [|u' r3]]; try reflexivity.
  destruct (is_high_surrogate n) eqn:Eh; [|reflexivity].
  specialize (Hpair eq_refl). unfold no_low_escape in Hpair.
  simpl andb. destruct ((b =? 92) && (u' =? 117)); [|reflexivity].
  destruct r3 as [|k1 [|k2 [|k3 [|k4 r4]]]]; try discriminate.
  destruct (hex4 k1 k2 k3 k4) as [u2|]; [|discriminate].
  apply negb_true_iff in Hpair. now rewrite Hpair.
Qed.

Lemma lor_disjoint a x : N.land a 1023 = 0 -> x < 1024 -> N.lor a x = a + x.
Proof.
  intros Ha Hx.
  assert (Hl : N.land a x = 0).
  { rewrite <- (N.mod_small x 1024) by assumption.
    change 1024 with (2 ^ 10). rewrite <- N.land_ones.
    change (N.ones 10) with 1023.
    now rewrite (N.land_comm x), N.land_assoc, Ha, N.land_0_l. }
  now rewrite N.add_nocarry_lxor, N.lxor_lor.
Qed.

Lemma high_half n :
  n < 1048576 -> N.lor 55296 (N.land (N.shiftr n 10) 1023) = 55296 + n / 1024.
Proof.
  intros Hn. rewrite N.shiftr_div_pow2. change (2 ^ 10) with 1024.
  assert (Hq : n / 1024 < 1024) by (apply N.Div0.div_lt_upper_bound; lia).
  change 1023 with (N.ones 10). rewrite N.land_ones. change (2 ^ 10) with 1024.
  rewrite N.mod_small by assumption.
  now apply lor_disjoint.
Qed.

Lemma low_half n : N.lor 56320 (N.land n 1023) = 56320 + n mod 1024.
Proof.
  change 1023 with (N.ones 10). rewrite N.land_ones. change (2 ^ 10) with 1024.
  apply lor_disjoint; [reflexivity|]. apply N.mod_lt. discriminate.
Qed.

(** A code point above the basic plane is written as two escapes and
    read back as one code point. *)
Lemma scanstring_pair c R :
  65536 <= c -> c < 1114112 ->
  scanstring (u_escape (N.lor 55296 (N.land (N.shiftr (c - 65536) 10) 1023))
                ++ u_escape (N.lor 56320 (N.land (c - 65536) 1023)) ++ R)
  = cons_char c (scanstring R).
Proof.
  intros Hlo Hhi.
  rewrite high_half, low_half by lia.
  pose proof (N.div_mod (c - 65536) 1024) as Hdm.
  assert (Hq : (c - 65536) / 1024 < 1024) by (apply N.Div0.div_lt_upper_bound; lia).
  assert (Hr : (c - 65536) mod 1024 < 1024) by (apply N.mod_lt; discriminate).
  assert (Hc : c = 65536 + (1024 * ((c - 65536) / 1024) + (c - 65536) mod 1024))
    by lia.
  clear Hdm. revert Hq Hr Hc.
  generalize ((c - 65536) / 1024). generalize ((c - 65536) mod 1024).
  intros m q Hq Hr Hc.
  set (hi := 55296 + q). set (lo := 56320 + m).
  unfold u_escape. cbn [app].
  rewrite scanstring_u_unfold, (hex4_digits hi) by (unfold hi; lia).
  assert (Hh : is_high_surrogate hi = true).
  { unfold is_high_surrogate, hi. apply andb_true_iff.
    split; apply N.leb_le; lia. }
  assert (Hl : is_low_surrogate lo = true).
  { unfold is_low_surrogate, lo. apply andb_true_iff.
    split; apply N.leb_le; lia. }
  rewrite Hh. simpl andb. cbv iota.
  rewrite (hex4_digits lo) by (unfold lo; lia).
  rewrite Hl. f_equal. unfold join_surrogates, hi, lo. lia.
Qed.

Ltac special_char E :=
  apply N.eqb_eq in E; subst; reflexivity.

(** One character: its escape is read back as the character. *)
Lemma scanstring_escape_char c R :
  c < 1114112 ->
  (is_high_surrogate c = true -> no_low_escape R = true) ->
  scanstring (escape_char c ++ R) = cons_char c (scanstring R).
Proof.
  intros Hc Hpair. unfold escape_char.
  destruct (c =? 34) eqn:E1; [special_char E1|].
  destruct (c =? 92) eqn:E2; [special_char E2|].
  destruct (c =? 10) eqn:E3; [special_char E3|].
  destruct (c =? 13) eqn:E4; [special_char E4|].
  destruct (c =? 9) eqn:E5; [special_char E5|].
  destruct (c =? 8) eqn:E6; [special_char E6|].
  destruct (c =? 12) eqn:E7; [special_char E7|].
  destruct ((32 <=? c) && (c <=? 126)) eqn:E8.
  - apply andb_true_iff in E8 as [E8 _]. apply N.leb_le in E8.
    cbn [app scanstring]. rewrite E1, E2.
    destruct (c <=? 31) eqn:E9; [apply N.leb_le in E9; lia | reflexivity].
  - destruct (c <? 65536) eqn:E9.
    + apply N.ltb_lt in E9. now apply scanstring_u_escape.
    + apply N.ltb_ge in E9. rewrite <- app_assoc. now apply scanstring_pair.
Qed.

Lemma no_low_escape_escape_char c R :
  c < 1114112 -> is_low_surrogate c = false ->
  no_low_escape (escape_char c ++ R) = true.
Proof.
  intros Hc Hlow. unfold escape_char.
  destruct (c =? 34) eqn:E1; [special_char E1|].
  destruct (c =? 92) eqn:E2; [special_char E2|].
  destruct (c =? 10) eqn:E3; [special_char E3|].
  destruct (c =? 13) eqn:E4; [special_char E4|].
  destruct (c =? 9) eqn:E5; [special_char E5|].
  destruct (c =? 8) eqn:E6; [special_char E6|].
  destruct (c =? 12) eqn:E7; [special_char E7|].
  destruct ((32 <=? c) && (c <=? 126)) eqn:E8.
  - cbn [app]. destruct R as [|u' R]; [reflexivity|].
    unfold no_low_escape. now rewrite E2.
  - destruct (c <? 65536) eqn:E9.
    + apply N.ltb_lt in E9. unfold u_escape. cbn [app].
      unfold no_low_escape. simpl andb. cbv iota.
      now rewrite (hex4_digits c E9), Hlow.
    + apply N.ltb_ge in E9. rewrite high_half by lia.
      assert (Hq : (c - 65536) / 1024 < 1024)
        by (apply N.Div0.div_lt_upper_bound; lia).
      unfold u_escape. cbn [app]. unfold no_low_escape. simpl andb. cbv iota.
      rewrite hex4_digits by lia.
      unfold is_low_surrogate. apply negb_true_iff. apply andb_false_iff.
      left. apply N.leb_gt. lia.
Qed.

(** A name is read back from its encoding, up to the closing quote. *)
Lemma scanstring_encoded s rest :
  plain_text s = true ->
  scanstring (flat_map escape_char s ++ 34 :: rest) = Some (s, rest).
Proof.
  induction s as [|c s IH]; intros Hs; [reflexivity|].
  cbn [plain_text] in Hs.
  apply andb_true_iff in Hs as [Hs Hrest].
  apply andb_true_iff in Hs as [Hc Hpair].
  apply N.ltb_lt in Hc. apply negb_true_iff in Hpair.
  cbn [flat_map]. rewrite <- app_assoc.
  rewrite scanstring_escape_char; [now rewrite IH| assumption |].
  intros Hh. rewrite Hh in Hpair. simpl in Hpair.
  destruct s as [|c' s'].
  - cbn [flat_map app]. destruct rest; reflexivity.
  - cbn [flat_map]. rewrite <- app_assoc.
    cbn [plain_text] in Hrest.
    apply andb_true_iff in Hrest as [Hrest _].
    apply andb_true_iff in Hrest as [Hc' _]. apply N.ltb_lt in Hc'.
    now apply no_low_escape_escape_char.
Qed.

End Strings.

Section Numbers.

Local Open Scope N_scope.
Import Json.

Lemma is_digit_cases c :
  is_digit c = true ->
  c = 48 \/ c = 49 \/ c = 50 \/ c = 51 \/ c = 52 \/ c = 53 \/ c = 54 \/ c = 55
  \/ c = 56 \/ c = 57.
Proof.
  unfold is_digit. intros H. apply andb_true_iff in H as [H1 H2].
  apply N.leb_le in H1, H2. lia.
Qed.

Lemma chars_uint_chars u : chars_uint (uint_chars u) = u.
Proof. induction u; simpl; congruence. Qed.

Lemma span_digits_chars u c r :
  is_digit c = false ->
  span_digits (uint_chars u ++ c :: r) = (uint_chars u, c :: r).
Proof.
  intros Hc. induction u; cbn [uint_chars app span_digits];
    try (change (is_digit _) with true; cbv iota; now rewrite IHu).
  now rewrite Hc.
Qed.

Lemma nzhead_no_zero u :
  match Decimal.nzhead u with Decimal.D0 _ => False | _ => True end.
Proof. induction u; simpl; auto. Qed.

Lemma pos_to_uint_head p :
  match Pos.to_uint p with
  | Decimal.Nil | Decimal.D0 _ => False
  | _ => True
  end.
Proof.
  pose proof (DecimalPos.Unsigned.to_of (Pos.to_uint p)) as H.
  rewrite DecimalPos.Unsigned.of_to in H. simpl in H.
  pose proof (DecimalPos.Unsigned.to_uint_nonzero p) as Hnz.
  pose proof (nzhead_no_zero (Pos.to_uint p)) as Hh.
  unfold Decimal.unorm in H.
  destruct (Decimal.nzhead (Pos.to_uint p)) eqn:E;
    try (rewrite H; exact I); contradiction.
Qed.

(** The decimal digits of a number: at least one, and no leading zero
    except for zero itself. *)
Lemma uint_chars_head n :
  exists c0 u,
    uint_chars (N.to_uint n) = c0 :: uint_chars u
    /\ is_digit c0 = true
    /\ (c0 = 48 -> u = Decimal.Nil).
Proof.
  destruct n as [|p].
  - exists 48, Decimal.Nil. repeat split.
  - simpl. pose proof (pos_to_uint_head p) as H.
    destruct (Pos.to_uint p) as [|u|u|u|u|u|u|u|u|u|u]; try contradiction;
      eexists _, u; (split; [reflexivity|]); (split; [reflexivity|]);
      discriminate.
Qed.

Lemma match_int_part_digits n c r :
  is_digit c = false ->
  match_int_part (uint_chars (N.to_uint n) ++ c :: r)
  = Some (uint_chars (N.to_uint n), c :: r).
Proof.
  intros Hc. destruct (uint_chars_head n) as [c0 [u [E [Hd Hz]]]].
  rewrite E. cbn [app match_int_part].
  destruct (c0 =? 48) eqn:E0.
  - apply N.eqb_eq in E0. rewrite (Hz E0). subst. reflexivity.
  - rewrite Hd. now rewrite span_digits_chars.
Qed.

Lemma match_unsigned_digits n c r (neg : bool) :
  is_digit c = false -> (c =? 46) = false -> (c =? 101) = false -> (c =? 69) = false ->
  match_unsigned neg (uint_chars (N.to_uint n) ++ c :: r)
  = Some (PyInt (if neg then (- Z.of_N n)%Z else Z.of_N n), c :: r).
Proof.
  intros Hd H46 H101 H69. unfold match_unsigned.
  rewrite match_int_part_digits by assumption.
  assert (Hf : match_frac (c :: r) = ([], c :: r)).
  { unfold match_frac. destruct r; [reflexivity|]. now rewrite H46. }
  assert (He : match_exp (c :: r) = ([], c :: r)).
  { unfold match_exp. now rewrite H101, H69. }
  rewrite Hf, He. cbv zeta. rewrite chars_uint_chars.
  now rewrite DecimalN.Unsigned.of_to.
Qed.

Lemma match_number_digits n c r :
  is_digit c = false -> (c =? 46) = false -> (c =? 101) = false -> (c =? 69) = false ->
  match_number (uint_chars (N.to_uint n) ++ c :: r) = Some (PyInt (Z.of_N n), c :: r).
Proof.
  intros Hd H46 H101 H69.
  rewrite <- (match_unsigned_digits n c r false Hd H46 H101 H69).
  destruct (uint_chars_head n) as [c0 [u [E [Hc0 _]]]].
  rewrite E. cbn [app]. unfold match_number.
  destruct (is_digit_cases c0 Hc0)
    as [->|[->|[->|[->|[->|[->|[->|[->|[->| ->]]]]]]]]];
    reflexivity.
Qed.

(** An integer is read back from its decimal text, up to a character
    that cannot continue a number. *)
Lemma match_number_int_repr z c r :
  is_digit c = false -> (c =? 46) = false -> (c =? 101) = false -> (c =? 69) = false ->
  match_number (int_repr z ++ c :: r) = Some (PyInt z, c :: r).
Proof.
  intros Hd H46 H101 H69. destruct z as [|p|p].
  - now apply (match_number_digits 0).
  - now apply (match_number_digits (N.pos p)).
  - unfold int_repr. cbn [app]. unfold match_number.
    change (45 =? 45) with true. cbv iota.
    now rewrite (match_unsigned_digits (N.pos p) c r true).
Qed.

Lemma int_repr_head z :
  (exists c0 s, int_repr z = c0 :: s /\ is_digit c0 = true)
  \/ (exists c0 s, int_repr z = 45 :: c0 :: s /\ is_digit c0 = true).
Proof.
  unfold int_repr. destruct z as [|p|p].
  - left. exists 48, []. now split.
  - left. destruct (uint_chars_head (Z.to_N (Z.pos p))) as [c0 [u [E [Hc0 _]]]].
    eauto.
  - right. destruct (uint_chars_head (N.pos p)) as [c0 [u [E [Hc0 _]]]].
    rewrite E. eauto.
Qed.

Lemma scan_once_digit depth c0 s :
  is_digit c0 = true -> scan_once (S depth) (c0 :: s) = match_number (c0 :: s).
Proof.
  intros H.
  destruct (is_digit_cases c0 H) as [->|[->|[->|[->|[->|[->|[->|[->|[->| ->]]]]]]]]];
    reflexivity.
Qed.

Lemma scan_once_minus depth c0 s :
  is_digit c0 = true -> scan_once (S depth) (45 :: c0 :: s) = match_number (45 :: c0 :: s).
Proof.
  intros H.
  destruct (is_digit_cases c0 H) as [->|[->|[->|[->|[->|[->|[->|[->|[->| ->]]]]]]]]];
    reflexivity.
Qed.

(** The scanner reads an integer back from its decimal text. *)
Lemma scan_once_int_repr depth z c r :
  is_digit c = false -> (c =? 46) = false -> (c =? 101) = false -> (c =? 69) = false ->
  scan_once (S depth) (int_repr z ++ c :: r) = Some (PyInt z, c :: r).
Proof.
  intros Hd H46 H101 H69.
  rewrite <- (match_number_int_repr z c r Hd H46 H101 H69).
  destruct (int_repr_head z) as [[c0 [s [E Hc0]]] | [c0 [s [E Hc0]]]];
    rewrite E; cbn [app].
  - now apply scan_once_digit.
  - now apply scan_once_minus.
Qed.

End Numbers.

Section Objects.

Local Open Scope N_scope.
Import Json.

Lemma encode_stock k z l :
  forallb (fun kv => is_quantity (snd kv)) l = true ->
  encode 0 (PyDict ((k, PyInt z) :: l))
  = Some (123 :: newline_indent 1 ++ member_text (k, PyInt z) ++ more_members l
            ++ newline_indent 0 ++ [125]).
Proof.
  intros Hl. cbn [encode bind_opt].
  match goal with
  | |- bind_opt (?items l) _ = _ =>
      assert (Hitems : forall l', forallb (fun kv => is_quantity (snd kv)) l' = true ->
                                  items l' = Some (more_members l'))
  end.
  { induction l' as [|[k' v'] l' IH]; intros H; [reflexivity|].
    cbn [forallb] in H. apply andb_true_iff in H as [Hv H].
    destruct v'; try discriminate.
    cbn [encode bind_opt]. rewrite (IH H). cbn [bind_opt more_members].
    unfold member_text. cbn [fst snd]. now rewrite <- !app_assoc. }
  rewrite (Hitems l Hl). cbn [bind_opt].
  unfold member_text. cbn [fst snd]. now rewrite <- !app_assoc.
Qed.

Lemma skip_ws_int_repr z t : skip_ws (int_repr z ++ t) = int_repr z ++ t.
Proof.
  destruct (int_repr_head z) as [[c0 [s [E Hc0]]] | [c0 [s [E Hc0]]]];
    rewrite E; [|reflexivity].
  destruct (is_digit_cases c0 Hc0)
    as [->|[->|[->|[->|[->|[->|[->|[->|[->| ->]]]]]]]]]; reflexivity.
Qed.

Lemma skip_ws_ws c r : is_ws c = true -> skip_ws (c :: r) = skip_ws r.
Proof. intros H. cbn [skip_ws]. now rewrite H. Qed.

Lemma skip_ws_stop c r : is_ws c = false -> skip_ws (c :: r) = c :: r.
Proof. intros H. cbn [skip_ws]. now rewrite H. Qed.

Lemma set_fresh k v (acc : dict) :
  mem k (keys acc) = false -> set k v acc = acc ++ [(k, v)].
Proof.
  induction acc as [|[k' v'] acc IH]; simpl; [reflexivity|].
  intros H. apply orb_false_iff in H as [H1 H2]. rewrite H1. now rewrite IH.
Qed.

Lemma distinct_app_mem l1 k l2 : distinct (l1 ++ k :: l2) = true -> mem k l1 = false.
Proof.
  induction l1 as [|k' l1 IH]; simpl; [reflexivity|].
  intros H. apply andb_true_iff in H as [H1 H2].
  rewrite (IH H2), orb_false_r.
  apply negb_true_iff in H1.
  destruct (str_eqb k k') eqn:E; [|reflexivity].
  apply str_eqb_eq in E. subst k'.
  assert (Hin : mem k (l1 ++ k :: l2) = true).
  { apply mem_In. apply in_or_app. right. now left. }
  congruence.
Qed.

Lemma length_more_members l : (List.length l <= List.length (more_members l))%nat.
Proof.
  induction l as [|kv l IH]; simpl; [lia|].
  rewrite !length_app. lia.
Qed.

Lemma skip_ws_member kv t : skip_ws (member_text kv ++ t) = member_text kv ++ t.
Proof. reflexivity. Qed.

Section Members.

Variable scan : pystr -> option (PyVal * pystr).

Hypothesis scan_int : forall z c r,
  is_digit c = false -> (c =? 46) = false -> (c =? 101) = false -> (c =? 69) = false ->
  scan (int_repr z ++ c :: r) = Some (PyInt z, c :: r).

Lemma parse_members_quote n acc s :
  parse_members scan (S n) acc (34 :: s)
  = match scanstring s with
    | None => None
    | Some (k, r1) =>
        match skip_ws r1 with
        | c1 :: r2 =>
            if c1 =? 58 then
              match scan (skip_ws r2) with
              | None => None
              | Some (v, r3) =>
                  match skip_ws r3 with
                  | c2 :: r4 =>
                      if c2 =? 125 then Some (PyDict (set k v acc), r4)
                      else if c2 =? 44
                           then parse_members scan n (set k v acc) (skip_ws r4)
                           else None
                  | [] => None
                  end
              end
            else None
        | [] => None
        end
    end.
Proof. reflexivity. Qed.

(** One member of a Stock Map is read back, up to the comma or the
    newline that follows its quantity. *)
Lemma parse_members_step n acc k z c r :
  plain_text k = true ->
  c = 44 \/ c = 10 ->
  parse_members scan (S n) acc (member_text (k, PyInt z) ++ c :: r)
  = match skip_ws (c :: r) with
    | c2 :: r4 =>
        if c2 =? 125 then Some (PyDict (set k (PyInt z) acc), r4)
        else if c2 =? 44
             then parse_members scan n (set k (PyInt z) acc) (skip_ws r4)
             else None
    | [] => None
    end.
Proof.
  intros Hk Hc. unfold member_text, encode_str. cbn [fst snd].
  rewrite <- !app_assoc. cbn [app]. rewrite <- app_assoc. cbn [app].
  rewrite parse_members_quote, (scanstring_encoded k _ Hk).
  rewrite (skip_ws_stop 58) by reflexivity.
  change (58 =? 58) with true. cbv iota.
  rewrite (skip_ws_ws 32) by reflexivity.
  rewrite skip_ws_int_repr.
  rewrite scan_int by (destruct Hc as [-> | ->]; reflexivity).
  reflexivity.
Qed.

(** The members of a Stock Map are read back in their order. *)
Lemma parse_members_stock l : forall n acc k z rest,
  (List.length l < n)%nat ->
  forallb (fun kv => is_quantity (snd kv)) l = true ->
  forallb plain_text (k :: keys l) = true ->
  distinct (keys acc ++ k :: keys l) = true ->
  parse_members scan n acc
    (member_text (k, PyInt z) ++ more_members l ++ newline_indent 0 ++ 125 :: rest)
  = Some (PyDict (acc ++ (k, PyInt z) :: l), rest).
Proof.
  induction l as [|[k' v'] l IH]; intros n acc k z rest Hn Hq Hp Hd;
    (destruct n as [|n]; [simpl in Hn; lia|]);
    cbn [forallb] in Hp; apply andb_true_iff in Hp as [Hk Hp];
    pose proof (distinct_app_mem _ _ _ Hd) as Hfresh.
  - cbn [more_members app].
    change (newline_indent 0 ++ 125 :: rest) with (10 :: 125 :: rest).
    rewrite parse_members_step by auto.
    rewrite (skip_ws_ws 10), (skip_ws_stop 125) by reflexivity.
    change (125 =? 125) with true. cbv iota.
    now rewrite set_fresh.
  - cbn [forallb snd] in Hq. apply andb_true_iff in Hq as [Hv Hq].
    destruct v'; try discriminate.
    cbn [more_members]. rewrite <- app_comm_cons.
    rewrite parse_members_step by auto.
    rewrite (skip_ws_stop 44) by reflexivity.
    change (44 =? 125) with false. change (44 =? 44) with true. cbv iota.
    rewrite <- !app_assoc.
    change (newline_indent 1) with [10; 32; 32; 32; 32]. cbn [app].
    rewrite !skip_ws_ws by reflexivity.
    rewrite skip_ws_member.
    rewrite set_fresh by assumption.
    rewrite IH.
    + now rewrite <- app_assoc.
    + simpl in Hn. lia.
    + assumption.
    + assumption.
    + unfold keys in *. rewrite map_app, <- app_assoc. exact Hd.
Qed.

End Members.

(** [loads] reads a Stock Map back from the text [dumps] wrote, when
    the names are plain text. *)
Lemma loads_dumps_stock d :
  stock_map d = true ->
  forallb plain_text (keys d) = true ->
  exists text, dumps (PyDict d) = Some text /\ loads text = Some (PyDict d).
Proof.
  intros Hd Hp. apply andb_true_iff in Hd as [Hk Hq].
  destruct d as [|[k v] l].
  - exists [123; 125]. split; reflexivity.
  - cbn [forallb snd] in Hq. apply andb_true_iff in Hq as [Hv Hq].
    destruct v; try discriminate.
    eexists. split; [unfold dumps; now apply encode_stock|].
    set (tail := more_members l ++ newline_indent 0 ++ [125]).
    set (body := newline_indent 1 ++ member_text (k, PyInt z) ++ tail).
    assert (Hskip : skip_ws body = member_text (k, PyInt z) ++ tail).
    { unfold body. change (newline_indent 1) with [10; 32; 32; 32; 32]. cbn [app].
      rewrite !skip_ws_ws by reflexivity. apply skip_ws_member. }
    assert (Hscan : scan_once (S (S (List.length body))) (123 :: body)
                    = parse_members (scan_once (S (List.length body)))
                        (S (List.length body)) [] (skip_ws body)).
    { rewrite Hskip. reflexivity. }
    unfold loads.
    change (List.length (123 :: body)) with (S (List.length body)).
    rewrite (skip_ws_stop 123) by reflexivity.
    rewrite Hscan, Hskip. unfold tail.
    rewrite (parse_members_stock (scan_once (S (List.length body)))
               (scan_once_int_repr (List.length body)) l _ [] k z []).
    + reflexivity.
    + unfold body, tail. rewrite !length_app.
      pose proof (length_more_members l). lia.
    + assumption.
    + assumption.
    + exact Hk.
Qed.

End Objects.

(** ** Fuel

    The scanner is given the length of the text as fuel.  What it
    returns is shorter than what it was given, so the fuel never runs
    out: more fuel gives the same result. *)

Section Fuel.

Import Json.

Lemma skip_ws_length s : (List.length (skip_ws s) <= List.length s)%nat.
Proof.
  induction s as [|c s IH]; simpl; [lia|].
  destruct (is_ws c); simpl; lia.
Qed.

Lemma cons_char_inv c o t r :
  cons_char c o = Some (t, r) -> exists t', o = Some (t', r).
Proof.
  destruct o as [[t' r']|]; simpl; [|discriminate].
  intros H. inversion H. eauto.
Qed.

Lemma scanstring_shorter n : forall s t r,
  (List.length s <= n)%nat ->
  scanstring s = Some (t, r) -> (List.length r < List.length s)%nat.
Proof.
  induction n as [|n IH]; intros s t r Hn H.
  - destruct s; [discriminate | simpl in Hn; lia].
  - assert (Hrec : forall x c0 t0, (List.length x < List.length s)%nat ->
                     cons_char c0 (scanstring x) = Some (t0, r) ->
                     (List.length r < List.length s)%nat).
    { intros x c0 t0 Hx Hc. apply cons_char_inv in Hc as [t' Hc].
      apply IH in Hc; lia. }
    destruct s as [|c s]; [discriminate|].
    cbn [scanstring] in H.
    destruct (c =? 34)%N; [inversion H; simpl; lia|].
    destruct (c =? 92)%N.
    + destruct s as [|e r1]; [discriminate|].
      destruct (e =? 117)%N.
      * destruct r1 as [|h1 [|h2 [|h3 [|h4 r2]]]]; try discriminate.
        destruct (hex4 h1 h2 h3 h4) as [u|]; [|discriminate].
        destruct r2 as [|b [|u' r3]];
          try (apply Hrec in H; [assumption | simpl; lia]).
        destruct (is_high_surrogate u && (b =? 92)%N && (u' =? 117)%N);
          [|apply Hrec in H; [assumption | simpl; lia]].
        destruct r3 as [|k1 [|k2 [|k3 [|k4 r4]]]]; try discriminate.
        destruct (hex4 k1 k2 k3 k4) as [u2|]; [|discriminate].
        destruct (is_low_surrogate u2);
          apply Hrec in H; try assumption; simpl; lia.
      * destruct (simple_escape e); [|discriminate].
        apply Hrec in H; [assumption | simpl; lia].
    + destruct (c <=? 31)%N; [discriminate|].
      apply Hrec in H; [assumption | simpl; lia].
Qed.

Lemma span_digits_length s :
  (List.length (snd (span_digits s)) <= List.length s)%nat.
Proof.
  induction s as [|c s IH]; simpl; [lia|].
  destruct (is_digit c); simpl; [|lia].
  destruct (span_digits s); simpl in *. lia.
Qed.

Lemma match_int_part_shorter s ip r :
  match_int_part s = Some (ip, r) -> (List.length r < List.length s)%nat.
Proof.
  unfold match_int_part. destruct s as [|c s]; [discriminate|].
  destruct (c =? 48)%N; [intros H; inversion H; simpl; lia|].
  destruct (is_digit c); [|discriminate].
  pose proof (span_digits_length s) as Hs.
  destruct (span_digits s). intros H. inversion H. subst. simpl in *. lia.
Qed.

Lemma match_frac_length s : (List.length (snd (match_frac s)) <= List.length s)%nat.
Proof.
  unfold match_frac. destruct s as [|p [|c s]]; simpl; try lia.
  destruct ((p =? 46)%N && is_digit c); simpl; [|lia].
  pose proof (span_digits_length s) as Hs.
  destruct (span_digits s); simpl in *. lia.
Qed.

Lemma match_exp_length s : (List.length (snd (match_exp s)) <= List.length s)%nat.
Proof.
  unfold match_exp. destruct s as [|e s]; simpl; [lia|].
  destruct ((e =? 101)%N || (e =? 69)%N); simpl; [|lia].
  destruct s as [|g s'].
  - simpl. lia.
  - destruct ((g =? 43)%N || (g =? 45)%N).
    + pose proof (span_digits_length s') as Hs.
      destruct (span_digits s') as [[|d ds] rest]; simpl in *; lia.
    + pose proof (span_digits_length (g :: s')) as Hs.
      destruct (span_digits (g :: s')) as [[|d ds] rest]; simpl in *; lia.
Qed.

Lemma match_unsigned_shorter neg s v r :
  match_unsigned neg s = Some (v, r) -> (List.length r < List.length s)%nat.
Proof.
  unfold match_unsigned.
  destruct (match_int_part s) as [[ip r1]|] eqn:E; [|discriminate].
  apply match_int_part_shorter in E.
  pose proof (match_frac_length r1) as Hf.
  destruct (match_frac r1) as [frac r2].
  pose proof (match_exp_length r2) as He.
  destruct (match_exp r2) as [ex r3]. simpl in *.
  destruct frac, ex; intros H; inversion H; subst; lia.
Qed.

Lemma match_number_shorter s v r :
  match_number s = Some (v, r) -> (List.length r < List.length s)%nat.
Proof.
  unfold match_number. destruct s as [|c s]; [discriminate|].
  destruct (c =? 45)%N; intros H; apply match_unsigned_shorter in H; simpl in *; lia.
Qed.

Lemma strip_prefix_length p : forall s r,
  strip_prefix p s = Some r -> List.length s = (List.length p + List.length r)%nat.
Proof.
  induction p as [|a p IH]; intros s r; simpl.
  - intros H. now inversion H.
  - destruct s as [|b s]; [discriminate|].
    destruct (a =? b)%N; [|discriminate].
    intros H. apply IH in H. simpl. lia.
Qed.

Lemma constant_shorter text v s v' r :
  text <> EmptyString ->
  constant text v s = Some (v', r) -> (List.length r < List.length s)%nat.
Proof.
  intros Ht. unfold constant.
  destruct (strip_prefix (of_string text) s) as [r'|] eqn:E; [|discriminate].
  intros H. inversion H. subst. apply strip_prefix_length in E.
  destruct text; [congruence|]. simpl in E. lia.
Qed.

Section Loops.

Variable scan : pystr -> option (PyVal * pystr).

Hypothesis scan_shorter : forall s v r,
  scan s = Some (v, r) -> (List.length r < List.length s)%nat.

Lemma parse_elements_shorter n : forall acc s v r,
  parse_elements scan n acc s = Some (v, r) -> (List.length r < List.length s)%nat.
Proof.
  induction n as [|n IH]; intros acc s v r; [discriminate|].
  cbn [parse_elements].
  destruct (scan s) as [[v1 r1]|] eqn:E; [|discriminate].
  apply scan_shorter in E. pose proof (skip_ws_length r1) as Hw.
  destruct (skip_ws r1) as [|c r2]; [discriminate|].
  destruct (c =? 93)%N; [intros H; inversion H; subst; simpl in *; lia|].
  destruct (c =? 44)%N; [|discriminate].
  intros H. apply IH in H. pose proof (skip_ws_length r2). simpl in *. lia.
Qed.

Lemma parse_members_shorter n : forall acc s v r,
  parse_members scan n acc s = Some (v, r) -> (List.length r < List.length s)%nat.
Proof.
  induction n as [|n IH]; intros acc s v r; [discriminate|].
  cbn [parse_members].
  destruct s as [|q s]; [discriminate|].
  destruct (q =? 34)%N; [|discriminate].
  destruct (scanstring s) as [[k r1]|] eqn:Ek; [|discriminate].
  apply (scanstring_shorter (List.length s)) in Ek; [|lia].
  pose proof (skip_ws_length r1) as Hw1.
  destruct (skip_ws r1) as [|c1 r2]; [discriminate|].
  destruct (c1 =? 58)%N; [|discriminate].
  pose proof (skip_ws_length r2) as Hw2.
  destruct (scan (skip_ws r2)) as [[v1 r3]|] eqn:Ev; [|discriminate].
  apply scan_shorter in Ev. pose proof (skip_ws_length r3) as Hw3.
  destruct (skip_ws r3) as [|c2 r4]; [discriminate|].
  destruct (c2 =? 125)%N; [intros H; inversion H; subst; simpl in *; lia|].
  destruct (c2 =? 44)%N; [|discriminate].
  intros H. apply IH in H. pose proof (skip_ws_length r4). simpl in *. lia.
Qed.

(** With fuel above the length of the text, one more unit changes nothing. *)
Lemma parse_elements_more_fuel n : forall acc s,
  (List.length s <= n)%nat ->
  parse_elements scan n acc s = parse_elements scan (S n) acc s.
Proof.
  induction n as [|n IH]; intros acc s Hn.
  - destruct s; [|simpl in Hn; lia]. cbn [parse_elements].
    destruct (scan []) as [[v r]|] eqn:E; [|reflexivity].
    apply scan_shorter in E. simpl in E. lia.
  - cbn [parse_elements].
    destruct (scan s) as [[v1 r1]|] eqn:E; [|reflexivity].
    apply scan_shorter in E. pose proof (skip_ws_length r1) as Hw.
    destruct (skip_ws r1) as [|c r2]; [reflexivity|].
    destruct (c =? 93)%N; [reflexivity|].
    destruct (c =? 44)%N; [|reflexivity].
    apply IH. pose proof (skip_ws_length r2). simpl in *. lia.
Qed.

Lemma parse_members_more_fuel n : forall acc s,
  (List.length s <= n)%nat ->
  parse_members scan n acc s = parse_members scan (S n) acc s.
Proof.
  induction n as [|n IH]; intros acc s Hn.
  - destruct s; [reflexivity | simpl in Hn; lia].
  - cbn [parse_members].
    destruct s as [|q s]; [reflexivity|].
    destruct (q =? 34)%N; [|reflexivity].
    destruct (scanstring s) as [[k r1]|] eqn:Ek; [|reflexivity].
    apply (scanstring_shorter (List.length s)) in Ek; [|lia].
    pose proof (skip_ws_length r1) as Hw1.
    destruct (skip_ws r1) as [|c1 r2]; [reflexivity|].
    destruct (c1 =? 58)%N; [|reflexivity].
    pose proof (skip_ws_length r2) as Hw2.
    destruct (scan (skip_ws r2)) as [[v1 r3]|] eqn:Ev; [|reflexivity].
    apply scan_shorter in Ev. pose proof (skip_ws_length r3) as Hw3.
    destruct (skip_ws r3) as [|c2 r4]; [reflexivity|].
    destruct (c2 =? 125)%N; [reflexivity|].
    destruct (c2 =? 44)%N; [|reflexivity].
    apply IH. pose proof (skip_ws_length r4). simpl in *. lia.
Qed.

(** A second scanner that agrees on every shorter text gives the same
    container. *)
Variable scan' : pystr -> option (PyVal * pystr).

Lemma parse_elements_ext n : forall acc s,
  (forall x, (List.length x <= List.length s)%nat -> scan x = scan' x) ->
  parse_elements scan n acc s = parse_elements scan' n acc s.
Proof.
  induction n as [|n IH]; intros acc s Hext; [reflexivity|].
  cbn [parse_elements]. rewrite <- (Hext s) by lia.
  destruct (scan s) as [[v1 r1]|] eqn:E; [|reflexivity].
  apply scan_shorter in E. pose proof (skip_ws_length r1) as Hw.
  destruct (skip_ws r1) as [|c r2]; [reflexivity|].
  destruct (c =? 93)%N; [reflexivity|].
  destruct (c =? 44)%N; [|reflexivity].
  apply IH. intros x Hx. apply Hext.
  pose proof (skip_ws_length r2). simpl in *. lia.
Qed.

Lemma parse_members_ext n : forall acc s,
  (forall x, (List.length x < List.length s)%nat -> scan x = scan' x) ->
  parse_members scan n acc s = parse_members scan' n acc s.
Proof.
  induction n as [|n IH]; intros acc s Hext; [reflexivity|].
  cbn [parse_members].
  destruct s as [|q s]; [reflexivity|].
  destruct (q =? 34)%N; [|reflexivity].
  destruct (scanstring s) as [[k r1]|] eqn:Ek; [|reflexivity].
  apply (scanstring_shorter (List.length s)) in Ek; [|lia].
  pose proof (skip_ws_length r1) as Hw1.
  destruct (skip_ws r1) as [|c1 r2]; [reflexivity|].
  destruct (c1 =? 58)%N; [|reflexivity].
  pose proof (skip_ws_length r2) as Hw2.
  rewrite <- (Hext (skip_ws r2)) by (simpl in *; lia).
  destruct (scan (skip_ws r2)) as [[v1 r3]|] eqn:Ev; [|reflexivity].
  apply scan_shorter in Ev. pose proof (skip_ws_length r3) as Hw3.
  destruct (skip_ws r3) as [|c2 r4]; [reflexivity|].
  destruct (c2 =? 125)%N; [reflexivity|].
  destruct (c2 =? 44)%N; [|reflexivity].
  apply IH. intros x Hx. apply Hext.
  pose proof (skip_ws_length r4). simpl in *. lia.
Qed.

End Loops.

Lemma orelse_some {A : Type} (a b : option A) x :
  orelse a b = Some x -> a = Some x \/ b = Some x.
Proof. destruct a; simpl; auto. Qed.

Lemma scan_once_shorter fuel : forall s v r,
  scan_once fuel s = Some (v, r) -> (List.length r < List.length s)%nat.
Proof.
  induction fuel as [|fuel IH]; intros s v r; [discriminate|].
  cbn [scan_once]. destruct s as [|c s]; [discriminate|].
  destruct (c =? 34)%N.
  { destruct (scanstring s) as [[t r']|] eqn:E; [|discriminate].
    apply (scanstring_shorter (List.length s)) in E; [|lia].
    intros H. inversion H. subst. simpl. lia. }
  destruct (c =? 123)%N.
  { pose proof (skip_ws_length s) as Hw.
    destruct (skip_ws s) as [|c' r'] eqn:E; [discriminate|].
    destruct (c' =? 125)%N; [intros H; inversion H; subst; simpl in *; lia|].
    intros H. apply (parse_members_shorter _ IH) in H. simpl in *. lia. }
  destruct (c =? 91)%N.
  { pose proof (skip_ws_length s) as Hw.
    destruct (skip_ws s) as [|c' r'] eqn:E; [discriminate|].
    destruct (c' =? 93)%N; [intros H; inversion H; subst; simpl in *; lia|].
    intros H. apply (parse_elements_shorter _ IH) in H. simpl in *. lia. }
  intros H.
  repeat (apply orelse_some in H as [H|H];
          [apply constant_shorter in H; [assumption | discriminate]|]).
  exact (match_number_shorter _ _ _ H).
Qed.

Lemma scan_once_cons fuel c s :
  scan_once (S fuel) (c :: s)
  = if (c =? 34)%N then
      match scanstring s with
      | Some (t, r') => Some (PyStr t, r')
      | None => None
      end
    else if (c =? 123)%N then
      match skip_ws s with
      | c' :: r' =>
          if (c' =? 125)%N then Some (PyDict [], r')
          else parse_members (scan_once fuel) fuel [] (skip_ws s)
      | [] => None
      end
    else if (c =? 91)%N then
      match skip_ws s with
      | c' :: r' =>
          if (c' =? 93)%N then Some (PyList [], r')
          else parse_elements (scan_once fuel) fuel [] (skip_ws s)
      | [] => None
      end
    else
      orelse (constant "null" PyNone (c :: s))
     (orelse (constant "true" (PyBool true) (c :: s))
     (orelse (constant "false" (PyBool false) (c :: s))
     (orelse (constant "NaN" (PyFloat (of_string "NaN")) (c :: s))
     (orelse (constant "Infinity" (PyFloat (of_string "Infinity")) (c :: s))
     (orelse (constant "-Infinity" (PyFloat (of_string "-Infinity")) (c :: s))
             (match_number (c :: s))))))).
Proof. reflexivity. Qed.

Lemma scan_once_more_fuel fuel : forall s,
  (List.length s < fuel)%nat -> scan_once fuel s = scan_once (S fuel) s.
Proof.
  induction fuel as [|fuel IH]; intros s Hs; [lia|].
  destruct s as [|c s]; [reflexivity|].
  rewrite (scan_once_cons fuel), (scan_once_cons (S fuel)).
  simpl in Hs. pose proof (skip_ws_length s) as Hw.
  destruct (c =? 34)%N; [reflexivity|].
  destruct (c =? 123)%N.
  { destruct (skip_ws s) as [|c' r'] eqn:E; [reflexivity|].
    destruct (c' =? 125)%N; [reflexivity|].
    rewrite (parse_members_ext (scan_once fuel) (scan_once_shorter fuel)
               (scan_once (S fuel))) by (intros x Hx; apply IH; lia).
    apply parse_members_more_fuel; [apply scan_once_shorter | lia]. }
  destruct (c =? 91)%N; [|reflexivity].
  destruct (skip_ws s) as [|c' r'] eqn:E; [reflexivity|].
  destruct (c' =? 93)%N; [reflexivity|].
  rewrite (parse_elements_ext (scan_once fuel) (scan_once_shorter fuel)
             (scan_once (S fuel))) by (intros x Hx; apply IH; lia).
  apply parse_elements_more_fuel; [apply scan_once_shorter | lia].
Qed.

(** Any fuel above the length of the text gives what [loads] computes
    with the length itself. *)
Lemma scan_once_fuel_enough fuel s :
  (List.length s < fuel)%nat -> scan_once fuel s = scan_once (S (List.length s)) s.
Proof.
  intros H. induction fuel as [|fuel IH]; [lia|].
  destruct (Nat.eq_dec fuel (List.length s)) as [-> | Hne]; [reflexivity|].
  rewrite <- scan_once_more_fuel by lia. apply IH. lia.
Qed.

End Fuel.
(** * The claims *)

(** C3: when [remove_item] on a present item leaves a quantity of zero
    or less, the entry is deleted: [get_qty] then returns 0, the name is
    no longer a key, and [check_low_items] does not return it for any
    threshold. *)
Theorem remove_item_deletes_nonpositive d name v qty n :
  stock_map d = true ->
  lookup name d = Some (PyInt v) ->
  int_value qty = Some n ->
  v - n <= 0 ->
  remove_item (ledger d) (PyStr name) qty
  = Ok (ledger (del name d), [Log INFO (RemovedFromStock (PyStr name))])
  /\ get_qty (ledger (del name d)) (PyStr name) = Ok (PyInt 0)
  /\ ~ In name (keys (del name d))
  /\ forall threshold, exists low,
       check_low_items (ledger (del name d)) threshold = Ok low
       /\ ~ In (PyStr name) low.
Proof.
  intros Hd Hl Hq Hle.
  assert (Hkeys : ~ In name (keys (del name d))).
  { intros Hin. apply lookup_In_keys in Hin. now rewrite lookup_del_same in Hin. }
  repeat split.
  - rewrite (remove_item_present d name v qty n Hl Hq).
    apply Z.leb_le in Hle. now rewrite Hle.
  - unfold get_qty. simpl. now rewrite lookup_del_same.
  - exact Hkeys.
  - intros t. eexists. split.
    + apply check_low_items_stock. now apply stock_map_del.
    + rewrite In_map_PyStr. intros Hin. apply Hkeys.
      unfold keys in *. apply in_map_iff in Hin as [kv [Hk Hin]].
      apply filter_In in Hin as [Hin _]. apply in_map_iff. eauto.
Qed.

Lemma remove_item_deletes_nonpositive_witness :
  remove_item (ledger fruit) (PyStr banana) (PyInt 5)
  = Ok (ledger (del banana fruit), [Log INFO (RemovedFromStock (PyStr banana))])
  /\ get_qty (ledger (del banana fruit)) (PyStr banana) = Ok (PyInt 0)
  /\ ~ In banana (keys (del banana fruit))
  /\ forall threshold, exists low,
       check_low_items (ledger (del banana fruit)) threshold = Ok low
       /\ ~ In (PyStr banana) low.
Proof.
  apply (remove_item_deletes_nonpositive fruit banana 2 (PyInt 5) 5);
    [reflexivity | reflexivity | reflexivity | lia].
Defined.

(** C4: on a Stock Map, [check_low_items] returns exactly the names
    whose quantity is strictly below the threshold, in the insertion
    order of the map; a name whose quantity equals the threshold is not
    returned.  The method computes its list from the object and assigns
    nothing to it. *)
Theorem check_low_items_exact d threshold :
  stock_map d = true ->
  check_low_items (ledger d) threshold
  = Ok (map PyStr (keys (filter (below threshold) d)))
  /\ (forall name,
        In (PyStr name) (map PyStr (keys (filter (below threshold) d)))
        <-> exists z, lookup name d = Some (PyInt z) /\ z < threshold)
  /\ (forall name,
        lookup name d = Some (PyInt threshold) ->
        ~ In (PyStr name) (map PyStr (keys (filter (below threshold) d)))).
Proof.
  intros Hd. pose proof Hd as Hd'. apply andb_true_iff in Hd' as [Hk _].
  split; [now apply check_low_items_stock|].
  split.
  - intros name. rewrite In_map_PyStr. now apply In_keys_filter_below.
  - intros name Hl Hin. rewrite In_map_PyStr in Hin.
    apply (In_keys_filter_below threshold name d Hk) in Hin as [z [Hz Hlt]].
    rewrite Hl in Hz. inversion Hz. lia.
Qed.

Lemma check_low_items_exact_witness :
  check_low_items (ledger fruit) 5
  = Ok (map PyStr (keys (filter (below 5) fruit)))
  /\ (forall name,
        In (PyStr name) (map PyStr (keys (filter (below 5) fruit)))
        <-> exists z, lookup name fruit = Some (PyInt z) /\ z < 5)
  /\ (forall name,
        lookup name fruit = Some (PyInt 5) ->
        ~ In (PyStr name) (map PyStr (keys (filter (below 5) fruit)))).
Proof.
  apply (check_low_items_exact fruit 5). reflexivity.
Defined.

(** C5: [add_item] with a valid name and a negative integer quantity is
    not rejected: the stored total goes down by the absolute value of
    the quantity, and an absent name gets an entry at that negative
    value. *)
Theorem add_item_negative_quantity d name q :
  stock_map d = true ->
  name <> default_name ->
  q < 0 ->
  add_item (ledger d) (PyStr name) (PyInt q)
  = Ok (ledger (set name (PyInt (quantity d name - Z.abs q)) d),
        [Log INFO (Added (PyInt q) (PyStr name))])
  /\ get_qty (ledger (set name (PyInt (quantity d name - Z.abs q)) d)) (PyStr name)
     = Ok (PyInt (quantity d name - Z.abs q))
  /\ (lookup name d = None ->
      lookup name (set name (PyInt (quantity d name - Z.abs q)) d) = Some (PyInt q)).
Proof.
  intros Hd Hname Hq.
  replace (quantity d name - Z.abs q) with (quantity d name + q) by lia.
  repeat split.
  - now apply add_item_valid.
  - unfold get_qty. simpl. now rewrite lookup_set_same.
  - intros Habs. rewrite lookup_set_same. unfold quantity. now rewrite Habs.
Qed.

Lemma add_item_negative_quantity_witness :
  add_item (ledger fruit) (PyStr apple) (PyInt (-3))
  = Ok (ledger (set apple (PyInt (quantity fruit apple - Z.abs (-3))) fruit),
        [Log INFO (Added (PyInt (-3)) (PyStr apple))])
  /\ get_qty (ledger (set apple (PyInt (quantity fruit apple - Z.abs (-3))) fruit))
       (PyStr apple)
     = Ok (PyInt (quantity fruit apple - Z.abs (-3)))
  /\ (lookup apple fruit = None ->
      lookup apple (set apple (PyInt (quantity fruit apple - Z.abs (-3))) fruit)
      = Some (PyInt (-3))).
Proof.
  apply (add_item_negative_quantity fruit apple (-3));
    [reflexivity | discriminate | lia].
Defined.

(** C7: [add_item] with an item that is not a str, with the item
    ["default"], or with a quantity that is not int-typed leaves the
    object as it is, raises nothing and emits one WARNING record. *)
Theorem add_item_rejects_invalid self item qty :
  isinstance_str item = false \/ item = PyStr default_name \/ isinstance_int qty = false ->
  exists msg, add_item self item qty = Ok (self, [Log WARNING msg]).
Proof.
  intros H. unfold add_item.
  destruct (negb (isinstance_str item) || eq_str item default_name) eqn:E.
  - eexists. reflexivity.
  - destruct H as [H | [H | H]].
    + rewrite H in E. discriminate.
    + subst item. simpl in E. discriminate.
    + rewrite H. simpl. eexists. reflexivity.
Qed.

Lemma add_item_rejects_invalid_witness :
  (exists msg, add_item (ledger fruit) (PyStr default_name) (PyInt 5)
               = Ok (ledger fruit, [Log WARNING msg]))
  /\ (exists msg, add_item (ledger fruit) (PyInt 123) (PyInt 5)
                  = Ok (ledger fruit, [Log WARNING msg]))
  /\ (exists msg, add_item (ledger fruit) (PyStr apple) (PyStr (of_string "ten"))
                  = Ok (ledger fruit, [Log WARNING msg])).
Proof.
  split; [|split].
  - apply (add_item_rejects_invalid (ledger fruit) (PyStr default_name) (PyInt 5)).
    right. left. reflexivity.
  - apply (add_item_rejects_invalid (ledger fruit) (PyInt 123) (PyInt 5)).
    left. reflexivity.
  - apply (add_item_rejects_invalid (ledger fruit) (PyStr apple) (PyStr (of_string "ten"))).
    right. right. reflexivity.
Defined.

(** C8: [remove_item] with a str item that is not in the Stock Map and
    an int-typed quantity catches the KeyError: the map is unchanged,
    nothing is raised and one WARNING record is emitted. *)
Theorem remove_item_absent d name qty :
  isinstance_int qty = true ->
  lookup name d = None ->
  remove_item (ledger d) (PyStr name) qty
  = Ok (ledger d, [Log WARNING (RemoveNonExistent (PyStr name))]).
Proof.
  intros Hq Hl. now apply remove_missing_name.
Qed.

Lemma remove_item_absent_witness :
  remove_item (ledger fruit) (PyStr (of_string "orange")) (PyInt 1)
  = Ok (ledger fruit, [Log WARNING (RemoveNonExistent (PyStr (of_string "orange")))]).
Proof.
  apply (remove_item_absent fruit (of_string "orange") (PyInt 1)); reflexivity.
Defined.

(** C9, as stated, fails: [add_item] with the empty name and an
    integer is not rejected, the empty name is stored. *)
Lemma add_item_empty_name_stored :
  add_item init (PyStr []) (PyInt 3)
  = Ok (ledger [([], PyInt 3)], [Log INFO (Added (PyInt 3) (PyStr []))])
  /\ ledger [([], PyInt 3)] <> init
  /\ In [] (keys [([], PyInt 3)]).
Proof.
  split; [reflexivity|]. split; [discriminate | now left].
Qed.

(** C9, amended: [add_item] requires a str other than ["default"]; every
    such name, the empty one included, is accepted, and with an integer
    quantity the entry of that name holds the sum afterwards. *)
Theorem add_item_accepts_any_other_name d name q :
  stock_map d = true ->
  name <> default_name ->
  add_item (ledger d) (PyStr name) (PyInt q)
  = Ok (ledger (set name (PyInt (quantity d name + q)) d),
        [Log INFO (Added (PyInt q) (PyStr name))])
  /\ lookup name (set name (PyInt (quantity d name + q)) d)
     = Some (PyInt (quantity d name + q)).
Proof.
  intros Hd Hname. split.
  - now apply add_item_valid.
  - apply lookup_set_same.
Qed.

Lemma add_item_accepts_any_other_name_witness :
  add_item (ledger fruit) (PyStr []) (PyInt 4)
  = Ok (ledger (set [] (PyInt (quantity fruit [] + 4)) fruit),
        [Log INFO (Added (PyInt 4) (PyStr []))])
  /\ lookup [] (set [] (PyInt (quantity fruit [] + 4)) fruit)
     = Some (PyInt (quantity fruit [] + 4)).
Proof.
  apply (add_item_accepts_any_other_name fruit [] 4); [reflexivity | discriminate].
Defined.

(** C10: [remove_item] has no sign check: on a present item a negative
    integer quantity raises the stored quantity by its absolute value,
    and the entry stays while the result is positive. *)
Theorem remove_item_negative_quantity d name v q :
  lookup name d = Some (PyInt v) ->
  q < 0 ->
  0 < v - q ->
  remove_item (ledger d) (PyStr name) (PyInt q)
  = Ok (ledger (set name (PyInt (v + Z.abs q)) d), [])
  /\ get_qty (ledger (set name (PyInt (v + Z.abs q)) d)) (PyStr name)
     = Ok (PyInt (v + Z.abs q)).
Proof.
  intros Hl Hq Hpos.
  replace (v + Z.abs q) with (v - q) by lia. split.
  - rewrite (remove_item_present d name v (PyInt q) q Hl eq_refl).
    destruct (v - q <=? 0) eqn:E; [apply Z.leb_le in E; lia | reflexivity].
  - unfold get_qty. simpl. now rewrite lookup_set_same.
Qed.

Lemma remove_item_negative_quantity_witness :
  remove_item (ledger fruit) (PyStr banana) (PyInt (-4))
  = Ok (ledger (set banana (PyInt (2 + Z.abs (-4))) fruit), [])
  /\ get_qty (ledger (set banana (PyInt (2 + Z.abs (-4))) fruit)) (PyStr banana)
     = Ok (PyInt (2 + Z.abs (-4))).
Proof.
  apply (remove_item_negative_quantity fruit banana 2 (-4)); [reflexivity | lia | lia].
Defined.






(** C2, as stated, fails in two ways.  [save_data] on a path that cannot
    be opened for writing only logs the error, so the [load_data] that
    follows finds no file and empties the Stock Map.  And a name with a
    high surrogate directly followed by a low surrogate is written as
    two escapes that [loads] joins into one code point. *)
Lemma save_then_load_changes_stock :
  (exists fs',
      save_data disk (ledger fruit) [] = Ok (fs', [Log ERROR (ErrorSaving [])])
      /\ load_data fs' (ledger fruit) [] = Ok (init, [Log WARNING (FileNotFound [])])
      /\ init <> ledger fruit)
  /\ (exists fs',
         save_data disk (ledger [([55357; 56832]%N, PyInt 1)]) inventory_json
         = Ok (fs', [Log INFO (DataSaved inventory_json)])
         /\ load_data fs' (ledger [([55357; 56832]%N, PyInt 1)]) inventory_json
            = Ok (ledger [([128512]%N, PyInt 1)], [Log INFO (DataLoaded inventory_json)])
         /\ ledger [([128512]%N, PyInt 1)] <> ledger [([55357; 56832]%N, PyInt 1)]).
Proof.
  split; eexists; (split; [vm_compute; reflexivity|]);
    (split; [vm_compute; reflexivity | discriminate]).
Qed.

(** C2, amended: for a Stock Map of positive integers whose names are
    plain text (no high surrogate directly followed by a low one), and
    a path that can be opened for writing, [save_data] followed by
    [load_data] on that path gives the same Stock Map back: same names
    in the same order, same integers. *)
Theorem save_then_load_round_trip fs d file :
  positive_stock d = true ->
  forallb plain_text (keys d) = true ->
  can_write fs file = true ->
  exists fs',
    save_data fs (ledger d) file = Ok (fs', [Log INFO (DataSaved file)])
    /\ forall self,
         load_data fs' self file = Ok (ledger d, [Log INFO (DataLoaded file)]).
Proof.
  intros Hd Hp Hw.
  destruct (loads_dumps_stock d (positive_stock_is_stock_map d Hd) Hp)
    as [text [Hdumps Hloads]].
  exists (write fs file text). split.
  - unfold save_data. rewrite Hw. cbn [stock_data ledger]. now rewrite Hdumps.
  - intros self. unfold load_data, write. cbn [node].
    rewrite str_eqb_refl. now rewrite Hloads.
Qed.

Lemma save_then_load_round_trip_witness :
  exists fs',
    save_data disk (ledger fruit) inventory_json
    = Ok (fs', [Log INFO (DataSaved inventory_json)])
    /\ forall self,
         load_data fs' self inventory_json
         = Ok (ledger fruit, [Log INFO (DataLoaded inventory_json)]).
Proof.
  apply (save_then_load_round_trip disk fruit inventory_json); reflexivity.
Defined.

(** * Further properties of the methods *)

(** ** More on dictionaries *)

Lemma set_set k v1 v2 d : set k v2 (set k v1 d) = set k v2 d.
Proof.
  induction d as [|[k' v'] d IH]; simpl.
  - now rewrite str_eqb_refl.
  - destruct (str_eqb k k') eqn:E; simpl; rewrite E; congruence.
Qed.

Lemma set_same k v d : lookup k d = Some v -> set k v d = d.
Proof.
  induction d as [|[k' v'] d IH]; simpl; [discriminate|].
  destruct (str_eqb k k') eqn:E.
  - intros H. congruence.
  - intros H. now rewrite IH.
Qed.

Lemma del_absent k d : lookup k d = None -> del k d = d.
Proof.
  unfold del. induction d as [|[k' v'] d IH]; simpl; [reflexivity|].
  destruct (str_eqb k k') eqn:E; [discriminate|].
  intros H. simpl. now rewrite IH.
Qed.

Lemma keys_set k v d :
  keys (set k v d) = if mem k (keys d) then keys d else keys d ++ [k].
Proof.
  induction d as [|[k' v'] d IH]; simpl; [reflexivity|].
  destruct (str_eqb k k') eqn:E; simpl; [reflexivity|].
  rewrite IH. now destruct (mem k (keys d)).
Qed.

Lemma quantity_set k z d : quantity (set k (PyInt z) d) k = z.
Proof. unfold quantity. now rewrite lookup_set_same. Qed.

Lemma positive_quantity_absent d name :
  positive_stock d = true -> (quantity d name <= 0 <-> lookup name d = None).
Proof.
  intros Hd. unfold quantity. split.
  - destruct (lookup name d) as [v|] eqn:E; [|reflexivity].
    destruct (positive_stock_lookup _ _ _ Hd E) as [z [-> Hz]]. lia.
  - intros ->. lia.
Qed.

(** ** [add_item] and [remove_item] *)

(** X1: a valid [add_item] on a Stock Map changes the quantity of the
    named item by the quantity given (a bool counts as 1 or 0) and the
    quantity of no other item. *)
Theorem add_item_updates_only_that_item d name qty n :
  stock_map d = true ->
  name <> default_name ->
  int_value qty = Some n ->
  exists self',
    add_item (ledger d) (PyStr name) qty = Ok (self', [Log INFO (Added qty (PyStr name))])
    /\ get_qty self' (PyStr name) = Ok (PyInt (quantity d name + n))
    /\ forall other, other <> name ->
         get_qty self' (PyStr other) = get_qty (ledger d) (PyStr other).
Proof.
  intros Hd Hname Hq. eexists.
  split; [apply (add_item_valid d name qty n); assumption|]. split.
  - unfold get_qty. simpl. now rewrite lookup_set_same.
  - intros other Hother. unfold get_qty. simpl.
    rewrite lookup_set_other by congruence. reflexivity.
Qed.

Lemma add_item_updates_only_that_item_witness :
  exists self',
    add_item (ledger fruit) (PyStr banana) (PyBool true)
    = Ok (self', [Log INFO (Added (PyBool true) (PyStr banana))])
    /\ get_qty self' (PyStr banana) = Ok (PyInt (quantity fruit banana + 1))
    /\ forall other, other <> banana ->
         get_qty self' (PyStr other) = get_qty (ledger fruit) (PyStr other).
Proof.
  apply (add_item_updates_only_that_item fruit banana (PyBool true) 1);
    [reflexivity | discriminate | reflexivity].
Defined.

(** X2: [add_item] keeps the insertion order of the Stock Map: an item
    that is already there keeps its place, a new item goes last. *)
Theorem add_item_keeps_order d name qty n :
  stock_map d = true ->
  name <> default_name ->
  int_value qty = Some n ->
  exists d' logs,
    add_item (ledger d) (PyStr name) qty = Ok (ledger d', logs)
    /\ keys d' = if mem name (keys d) then keys d else keys d ++ [name].
Proof.
  intros Hd Hname Hq. do 2 eexists.
  split; [apply (add_item_valid d name qty n); assumption|].
  apply keys_set.
Qed.

Lemma add_item_keeps_order_witness :
  exists d' logs,
    add_item (ledger fruit) (PyStr pear) (PyInt 4) = Ok (ledger d', logs)
    /\ keys d' = if mem pear (keys fruit) then keys fruit else keys fruit ++ [pear].
Proof.
  apply (add_item_keeps_order fruit pear (PyInt 4) 4);
    [reflexivity | discriminate | reflexivity].
Defined.

(** X3: two [add_item] calls on the same item leave the Stock Map that
    one call with the sum of the quantities leaves. *)
Theorem add_item_accumulates d name a b :
  stock_map d = true ->
  name <> default_name ->
  exists s1 s2 l1 l2 l3,
    add_item (ledger d) (PyStr name) (PyInt a) = Ok (s1, l1)
    /\ add_item s1 (PyStr name) (PyInt b) = Ok (s2, l2)
    /\ add_item (ledger d) (PyStr name) (PyInt (a + b)) = Ok (s2, l3).
Proof.
  intros Hd Hname.
  exists (ledger (set name (PyInt (quantity d name + a)) d)).
  exists (ledger (set name (PyInt (quantity d name + (a + b))) d)).
  do 3 eexists.
  split; [apply (add_item_valid d name (PyInt a) a); auto|]. split.
  - rewrite (add_item_valid _ name (PyInt b) b) by
      (try apply stock_map_set; auto).
    rewrite quantity_set, set_set.
    replace (quantity d name + a + b) with (quantity d name + (a + b)) by lia.
    reflexivity.
  - apply (add_item_valid d name (PyInt (a + b)) (a + b)); auto.
Qed.

Lemma add_item_accumulates_witness :
  exists s1 s2 l1 l2 l3,
    add_item (ledger fruit) (PyStr apple) (PyInt 4) = Ok (s1, l1)
    /\ add_item s1 (PyStr apple) (PyInt (-9)) = Ok (s2, l2)
    /\ add_item (ledger fruit) (PyStr apple) (PyInt (4 + -9)) = Ok (s2, l3).
Proof.
  apply (add_item_accumulates fruit apple 4 (-9)); [reflexivity | discriminate].
Defined.

(** X4: [remove_item] with an item that is not a str or a quantity that
    is not int-typed leaves the object as it is, raises nothing and
    emits one WARNING record, whatever the object holds. *)
Theorem remove_item_rejects_invalid_types self item qty :
  isinstance_str item = false \/ isinstance_int qty = false ->
  remove_item self item qty
  = Ok (self, [Log WARNING (InvalidTypesForRemove item qty)]).
Proof.
  intros H. unfold remove_item.
  destruct H as [H | H]; rewrite H; simpl; [reflexivity|].
  now rewrite orb_true_r.
Qed.

Lemma remove_item_rejects_invalid_types_witness :
  remove_item (ledger fruit) (PyInt 7) (PyInt 1)
  = Ok (ledger fruit, [Log WARNING (InvalidTypesForRemove (PyInt 7) (PyInt 1))])
  /\ remove_item (ledger fruit) (PyStr apple) (PyStr (of_string "one"))
     = Ok (ledger fruit,
           [Log WARNING (InvalidTypesForRemove (PyStr apple) (PyStr (of_string "one")))]).
Proof.
  split.
  - apply (remove_item_rejects_invalid_types (ledger fruit) (PyInt 7) (PyInt 1)).
    left. reflexivity.
  - apply (remove_item_rejects_invalid_types (ledger fruit) (PyStr apple)
             (PyStr (of_string "one"))).
    right. reflexivity.
Defined.

(** X5: [remove_item] on an item of the Stock Map changes the quantity
    of no other item and keeps the order of the items that stay. *)
Theorem remove_item_touches_only_that_item d name v qty n :
  lookup name d = Some (PyInt v) ->
  int_value qty = Some n ->
  exists d' logs,
    remove_item (ledger d) (PyStr name) qty = Ok (ledger d', logs)
    /\ (forall other, other <> name ->
          get_qty (ledger d') (PyStr other) = get_qty (ledger d) (PyStr other))
    /\ keys d' = if v - n <=? 0
                 then filter (fun k => negb (str_eqb name k)) (keys d)
                 else keys d.
Proof.
  intros Hl Hq. rewrite (remove_item_present d name v qty n Hl Hq).
  destruct (v - n <=? 0); do 2 eexists; (split; [reflexivity|]); split.
  - intros other Hother. unfold get_qty. simpl.
    rewrite lookup_del_other by congruence. reflexivity.
  - apply keys_del.
  - intros other Hother. unfold get_qty. simpl.
    rewrite lookup_set_other by congruence. reflexivity.
  - rewrite keys_set.
    destruct (mem name (keys d)) eqn:E; [reflexivity|].
    apply mem_keys_lookup in E. congruence.
Qed.

Lemma remove_item_touches_only_that_item_witness :
  exists d' logs,
    remove_item (ledger fruit) (PyStr apple) (PyInt 10) = Ok (ledger d', logs)
    /\ (forall other, other <> apple ->
          get_qty (ledger d') (PyStr other) = get_qty (ledger fruit) (PyStr other))
    /\ keys d' = if 10 - 10 <=? 0
                 then filter (fun k => negb (str_eqb apple k)) (keys fruit)
                 else keys fruit.
Proof.
  apply (remove_item_touches_only_that_item fruit apple 10 (PyInt 10) 10); reflexivity.
Defined.

(** X6: on a Stock Map of positive quantities, [add_item] followed by
    [remove_item] of the same item and integer gives the Stock Map back
    as it was: same items in the same order, same quantities. *)
Theorem add_then_remove_restores d name q :
  positive_stock d = true ->
  name <> default_name ->
  exists s1 l1 l2,
    add_item (ledger d) (PyStr name) (PyInt q) = Ok (s1, l1)
    /\ remove_item s1 (PyStr name) (PyInt q) = Ok (ledger d, l2).
Proof.
  intros Hd Hname.
  pose proof (positive_stock_is_stock_map d Hd) as Hs.
  assert (Hrm : remove_item (ledger (set name (PyInt (quantity d name + q)) d))
                  (PyStr name) (PyInt q)
                = if quantity d name <=? 0
                  then Ok (ledger (del name d), [Log INFO (RemovedFromStock (PyStr name))])
                  else Ok (ledger (set name (PyInt (quantity d name)) d), [])).
  { rewrite (remove_item_present _ name (quantity d name + q) (PyInt q) q)
      by (try apply lookup_set_same; reflexivity).
    replace (quantity d name + q - q) with (quantity d name) by lia.
    now rewrite del_set, set_set. }
  destruct (quantity d name <=? 0) eqn:E; do 3 eexists;
    (split; [apply (add_item_valid d name (PyInt q) q); auto|]);
    rewrite Hrm.
  - apply Z.leb_le in E. apply (positive_quantity_absent d name Hd) in E.
    rewrite del_absent by assumption. reflexivity.
  - apply Z.leb_gt in E.
    unfold quantity in *. destruct (lookup name d) as [v|] eqn:El; [|lia].
    destruct (stock_map_lookup _ _ _ Hs El) as [z ->].
    rewrite set_same by assumption. reflexivity.
Qed.

Lemma add_then_remove_restores_witness :
  exists s1 l1 l2,
    add_item (ledger fruit) (PyStr pear) (PyInt 6) = Ok (s1, l1)
    /\ remove_item s1 (PyStr pear) (PyInt 6) = Ok (ledger fruit, l2).
Proof.
  apply (add_then_remove_restores fruit pear 6); [reflexivity | discriminate].
Defined.

(** ** [get_qty] and [check_low_items] *)

(** X7: on a Stock Map of positive quantities, [get_qty] returns 0 for
    exactly the names that are not in the map. *)
Theorem get_qty_zero_iff_absent d name :
  positive_stock d = true ->
  (get_qty (ledger d) (PyStr name) = Ok (PyInt 0) <-> ~ In name (keys d)).
Proof.
  intros Hd. unfold get_qty. simpl. rewrite <- lookup_In_keys. split.
  - intros H Hin. destruct (lookup name d) as [v|] eqn:E; [|congruence].
    destruct (positive_stock_lookup _ _ _ Hd E) as [z [-> Hz]].
    inversion H. lia.
  - intros H. destruct (lookup name d) as [v|]; [|reflexivity].
    elim H. discriminate.
Qed.

Lemma get_qty_zero_iff_absent_witness :
  get_qty (ledger fruit) (PyStr pear) = Ok (PyInt 0) <-> ~ In pear (keys fruit).
Proof.
  apply (get_qty_zero_iff_absent fruit pear). reflexivity.
Defined.

(** X8: raising the threshold never takes an item out of the result of
    [check_low_items]: what is low at a threshold is low at every
    larger one. *)
Theorem check_low_items_monotone d t1 t2 :
  stock_map d = true ->
  t1 <= t2 ->
  exists low1 low2,
    check_low_items (ledger d) t1 = Ok low1
    /\ check_low_items (ledger d) t2 = Ok low2
    /\ forall item, In item low1 -> In item low2.
Proof.
  intros Hd Ht. pose proof Hd as Hk. apply andb_true_iff in Hk as [Hk _].
  do 2 eexists. split; [now apply check_low_items_stock|].
  split; [now apply check_low_items_stock|].
  intros item Hin. apply in_map_iff in Hin as [name [<- Hin]].
  apply In_map_PyStr.
  apply (In_keys_filter_below t1 name d Hk) in Hin as [z [Hl Hz]].
  apply (In_keys_filter_below t2 name d Hk). exists z. split; [assumption | lia].
Qed.

Lemma check_low_items_monotone_witness :
  exists low1 low2,
    check_low_items (ledger fruit) 5 = Ok low1
    /\ check_low_items (ledger fruit) 11 = Ok low2
    /\ forall item, In item low1 -> In item low2.
Proof.
  apply (check_low_items_monotone fruit 5 11); [reflexivity | lia].
Defined.

Lemma comprehension_not_number d t (l1 l2 : dict) k v :
  distinct (keys d) = true ->
  (forall kv, In kv (l1 ++ [(k, v)]) -> In kv d) ->
  int_values l1 = true ->
  not_number v = true ->
  comprehension (PyDict d) t (map PyStr (keys (l1 ++ (k, v) :: l2))) = Raise TypeError.
Proof.
  intros Hk Hsub Hl1 Hv.
  induction l1 as [|[k1 v1] l1 IH]; simpl.
  - rewrite (lookup_In k v d Hk) by (apply Hsub; now left). simpl.
    destruct v; try discriminate; reflexivity.
  - simpl in Hl1. apply andb_true_iff in Hl1 as [H1 Hl1].
    rewrite (lookup_In k1 v1 d Hk) by (apply Hsub; now left). simpl.
    destruct (isinstance_int_value v1 H1) as [n Hn].
    unfold lt_int, cmp_int. rewrite Hn. simpl.
    rewrite IH; [reflexivity | | assumption].
    intros kv Hin. apply Hsub. now right.
Qed.

(** X9: [check_low_items] raises TypeError when it reaches a quantity
    that is not a number (a str, None, a list or a dict, as [load_data]
    may have read), all quantities before it being int-typed. *)
Theorem check_low_items_raises_on_non_number l1 k v l2 threshold :
  distinct (keys (l1 ++ (k, v) :: l2)) = true ->
  int_values l1 = true ->
  not_number v = true ->
  check_low_items (ledger (l1 ++ (k, v) :: l2)) threshold = Raise TypeError.
Proof.
  intros Hk Hl1 Hv. unfold check_low_items. simpl.
  apply comprehension_not_number; try assumption.
  intros kv Hin. apply in_app_or in Hin as [Hin | [<- | []]];
    apply in_or_app; [now left | right; now left].
Qed.

Lemma check_low_items_raises_on_non_number_witness :
  check_low_items
    (ledger ([(apple, PyInt 10)] ++ (banana, PyStr (of_string "two")) :: [(pear, PyInt 1)]))
    5
  = Raise TypeError.
Proof.
  apply (check_low_items_raises_on_non_number
           [(apple, PyInt 10)] banana (PyStr (of_string "two")) [(pear, PyInt 1)] 5);
    reflexivity.
Defined.

(** ** [load_data] and [save_data] *)



Lemma skip_ws_blank text : forallb Json.is_ws text = true -> Json.skip_ws text = [].
Proof.
  induction text as [|c r IH]; simpl; [reflexivity|].
  intros H. apply andb_true_iff in H as [Hc Hr]. rewrite Hc. auto.
Qed.

Lemma loads_blank text : forallb Json.is_ws text = true -> Json.loads text = None.
Proof.
  intros H. pose proof (skip_ws_blank text H) as Hs.
  destruct text as [|c r]; [reflexivity|].
  simpl in H. apply andb_true_iff in H as [Hc _].
  assert (Hcases : c = 32%N \/ c = 9%N \/ c = 10%N \/ c = 13%N).
  { unfold Json.is_ws in Hc. rewrite !orb_true_iff in Hc.
    rewrite !N.eqb_eq in Hc. tauto. }
  unfold Json.loads.
  destruct Hcases as [-> | [-> | [-> | ->]]]; now rewrite Hs.
Qed.

(** X11: [load_data] on an empty file, or on one that holds only
    spaces, tabs and line ends, logs an ERROR and resets the Stock Map
    to empty: such a file is not JSON. *)
Theorem load_data_blank_file fs self file text :
  node fs file = Regular text ->
  forallb Json.is_ws text = true ->
  load_data fs self file = Ok (init, [Log ERROR (ErrorDecodingJSON file)]).
Proof.
  intros Hnode Hblank. unfold load_data. rewrite Hnode.
  now rewrite (loads_blank text Hblank).
Qed.

Lemma load_data_blank_file_witness :
  load_data (write disk inventory_json []) (ledger fruit) inventory_json
  = Ok (init, [Log ERROR (ErrorDecodingJSON inventory_json)])
  /\ load_data (write disk inventory_json [32; 10]%N) (ledger fruit) inventory_json
     = Ok (init, [Log ERROR (ErrorDecodingJSON inventory_json)]).
Proof.
  split.
  - apply (load_data_blank_file (write disk inventory_json []) (ledger fruit)
             inventory_json []); reflexivity.
  - apply (load_data_blank_file (write disk inventory_json [32; 10]%N) (ledger fruit)
             inventory_json [32; 10]%N); reflexivity.
Defined.

Lemma dumps_stock d :
  stock_map d = true -> exists text, Json.dumps (PyDict d) = Some text.
Proof.
  intros Hd. apply andb_true_iff in Hd as [_ Hq].
  destruct d as [|[k v] l]; [now exists [123; 125]%N|].
  cbn [forallb snd] in Hq. apply andb_true_iff in Hq as [Hv Hq].
  destruct v; try discriminate.
  eexists. unfold Json.dumps. now apply encode_stock.
Qed.



(** *** The text [save_data] writes *)

Section Ascii.

Local Open Scope N_scope.
Import Json.

Lemma ascii_app a b : ascii_text (a ++ b) = ascii_text a && ascii_text b.
Proof. apply forallb_app. Qed.

Lemma hex_digit_ascii d : d < 16 -> (hex_digit d <? 128) = true.
Proof.
  intros H. unfold hex_digit. apply N.ltb_lt.
  destruct (d <? 10); lia.
Qed.

Lemma ascii_u_escape n : n < 65536 -> ascii_text (u_escape n) = true.
Proof.
  intros H. unfold u_escape, ascii_text. cbn [forallb].
  rewrite !hex_digit_ascii;
    try (apply N.mod_lt; discriminate);
    try (apply N.Div0.div_lt_upper_bound; lia).
  reflexivity.
Qed.

Lemma ascii_escape_char c : ascii_text (escape_char c) = true.
Proof.
  unfold escape_char.
  repeat match goal with
         | |- ascii_text (if ?b then _ else _) = true =>
             destruct b eqn:?; [reflexivity|]
         end.
  destruct ((32 <=? c) && (c <=? 126)) eqn:E.
  - apply andb_true_iff in E as [_ E]. apply N.leb_le in E.
    unfold ascii_text. cbn [forallb]. rewrite andb_true_r. apply N.ltb_lt. lia.
  - destruct (c <? 65536) eqn:E2.
    + apply N.ltb_lt in E2. now apply ascii_u_escape.
    + assert (Hb : forall x, N.land x 1023 < 1024).
      { intros x. change 1023 with (N.ones 10). rewrite N.land_ones.
        apply N.mod_lt. discriminate. }
      rewrite ascii_app, !ascii_u_escape; [reflexivity | |];
        rewrite lor_disjoint by (try reflexivity; apply Hb);
        pose proof (Hb (c - 65536)); pose proof (Hb (N.shiftr (c - 65536) 10)); lia.
Qed.

Lemma ascii_encode_str s : ascii_text (encode_str s) = true.
Proof.
  unfold encode_str. change (34 :: flat_map escape_char s ++ [34])
    with ([34] ++ flat_map escape_char s ++ [34]).
  rewrite !ascii_app. simpl. rewrite andb_true_r.
  induction s as [|c s IH]; [reflexivity|].
  cbn [flat_map]. now rewrite ascii_app, ascii_escape_char, IH.
Qed.

Lemma ascii_uint_chars u : ascii_text (uint_chars u) = true.
Proof. induction u; simpl; auto. Qed.

Lemma ascii_int_repr z : ascii_text (int_repr z) = true.
Proof.
  unfold int_repr. destruct z; apply ascii_uint_chars.
Qed.

Lemma ascii_member_text k z : ascii_text (member_text (k, PyInt z)) = true.
Proof.
  unfold member_text. cbn [fst snd].
  now rewrite !ascii_app, ascii_encode_str, ascii_int_repr.
Qed.

Lemma ascii_more_members l :
  forallb (fun kv => is_quantity (snd kv)) l = true -> ascii_text (more_members l) = true.
Proof.
  induction l as [|[k v] l IH]; [reflexivity|].
  cbn [forallb snd]. intros H. apply andb_true_iff in H as [Hv H].
  destruct v; try discriminate.
  cbn [more_members].
  change (44 :: newline_indent 1 ++ member_text (k, PyInt z) ++ more_members l)
    with ([44; 10; 32; 32; 32; 32] ++ member_text (k, PyInt z) ++ more_members l).
  now rewrite !ascii_app, ascii_member_text, IH.
Qed.

Lemma ascii_dumps_stock d text :
  stock_map d = true -> dumps (PyDict d) = Some text -> ascii_text text = true.
Proof.
  intros Hd. apply andb_true_iff in Hd as [_ Hq].
  destruct d as [|[k v] l]; [intros H; now inversion H|].
  cbn [forallb snd] in Hq. apply andb_true_iff in Hq as [Hv Hq].
  destruct v; try discriminate.
  unfold dumps. rewrite (encode_stock k z l Hq). intros H.
  assert (E : text = [123; 10; 32; 32; 32; 32] ++ member_text (k, PyInt z)
                       ++ more_members l ++ [10; 125])
    by (inversion H; reflexivity).
  rewrite E.
  now rewrite !ascii_app, ascii_member_text, ascii_more_members.
Qed.

End Ascii.

(** X13: the text [save_data] writes for a Stock Map holds ASCII
    characters only, whatever code points the item names hold: every
    other character is written as an escape. *)
Theorem save_data_writes_ascii fs d file :
  stock_map d = true ->
  can_write fs file = true ->
  exists text,
    save_data fs (ledger d) file = Ok (write fs file text, [Log INFO (DataSaved file)])
    /\ ascii_text text = true.
Proof.
  intros Hd Hw. destruct (dumps_stock d Hd) as [text Htext].
  exists text. split.
  - unfold save_data. rewrite Hw. simpl. now rewrite Htext.
  - now apply (ascii_dumps_stock d).
Qed.

Lemma save_data_writes_ascii_witness :
  exists text,
    save_data disk (ledger [([233; 20013; 128512; 55357]%N, PyInt 3)]) inventory_json
    = Ok (write disk inventory_json text, [Log INFO (DataSaved inventory_json)])
    /\ ascii_text text = true.
Proof.
  apply (save_data_writes_ascii disk [([233; 20013; 128512; 55357]%N, PyInt 3)]
           inventory_json); reflexivity.
Defined.

(** ** [print_data] *)

Lemma print_lines_dict (l : dict) :
  print_lines l
  = ({| logged := [];
        printed := map (fun kv => ReportLine (fst kv) (snd kv)) l |}, Ok tt).
Proof.
  induction l as [|[k v] l IH]; [reflexivity|].
  cbn [print_lines]. unfold andthen, print. rewrite IH. reflexivity.
Qed.

Lemma print_data_dict (d : dict) :
  print_data (ledger d)
  = ({| logged := [];
        printed := ReportHeader
                     :: (match d with [] => [ReportEmpty] | _ => [] end)
                     ++ map (fun kv => ReportLine (fst kv) (snd kv)) d
                     ++ [ReportFooter] |},
     Ok tt).
Proof.
  unfold print_data. cbn [ledger stock_data truth items quiet].
  unfold andthen at 1. cbn [print].
  destruct d as [|kv d].
  - reflexivity.
  - cbn [negb andthen quiet print]. rewrite print_lines_dict. reflexivity.
Qed.


(** X15: on a value that is not a dict, [print_data] prints the header,
    and the placeholder line when the value is falsy, then raises
    AttributeError at [.items()]; the footer is not printed. *)
Theorem print_data_raises_on_non_dict sd b :
  not_dict sd = true ->
  truth sd = Ok b ->
  print_data {| stock_data := sd |}
  = ({| logged := [];
        printed := ReportHeader :: (if b then [] else [ReportEmpty]) |},
     Raise AttributeError).
Proof.
  intros Hsd Hb. unfold print_data. cbn [stock_data].
  rewrite Hb. destruct sd; try discriminate; destruct b; reflexivity.
Qed.

Lemma print_data_raises_on_non_dict_witness :
  print_data {| stock_data := PyList [] |}
  = ({| logged := [];
        printed := ReportHeader :: (if false then [] else [ReportEmpty]) |},
     Raise AttributeError).
Proof.
  apply (print_data_raises_on_non_dict (PyList []) false); reflexivity.
Defined.

(** ** [main] *)

Lemma load_data_resets fs self file :
  node fs file = NoFile
  \/ (exists text, node fs file = Regular text /\ Json.loads text = None) ->
  load_data fs self file = Ok (init, [reset_record fs file]).
Proof.
  unfold load_data, reset_record.
  intros [H | [text [H Hbad]]]; rewrite H; [reflexivity|]. now rewrite Hbad.
Qed.







Lemma main_steps fs s0 l0 s1 l1 s2 l2 s3 l3 s4 l4 s5 l5 q low fs' l6 s6 l7 t8 :
  load_data fs init default_file = Ok (s0, l0) ->
  add_item s0 (PyStr apple) (PyInt 10) = Ok (s1, l1) ->
  add_item s1 (PyStr banana) (PyInt 2) = Ok (s2, l2) ->
  add_item s2 (PyInt 123) (PyStr (of_string "ten")) = Ok (s3, l3) ->
  remove_item s3 (PyStr apple) (PyInt 3) = Ok (s4, l4) ->
  remove_item s4 (PyStr (of_string "orange")) (PyInt 1) = Ok (s5, l5) ->
  get_qty s5 (PyStr apple) = Ok q ->
  check_low_items s5 default_threshold = Ok low ->
  save_data fs s5 default_file = Ok (fs', l6) ->
  load_data fs' s5 default_file = Ok (s6, l7) ->
  print_data s6 = (t8, Ok tt) ->
  main fs
  = ({| logged := l0 ++ l1 ++ l2 ++ l3 ++ l4 ++ l5 ++ l6 ++ l7 ++ logged t8;
        printed := AppleStock q :: LowItems low :: printed t8 |},
     Ok fs').
Proof.
  intros H0 H1 H2 H3 H4 H5 H6 H7 H8 H9 H10.
  unfold main. cbn [andthen quiet].
  change (of_string "apple") with apple. change (of_string "banana") with banana.
  rewrite H0. cbn [andthen call].
  rewrite H1. cbn [andthen call].
  rewrite H2. cbn [andthen call].
  rewrite H3. cbn [andthen call].
  rewrite H4. cbn [andthen call].
  rewrite H5. cbn [andthen call].
  rewrite H6. cbn [andthen call quiet print].
  rewrite H7. cbn [andthen call quiet print].
  rewrite H8. cbn [andthen call quiet print].
  rewrite H9. cbn [andthen call quiet print].
  rewrite H10. cbn [andthen call quiet print].
  unfold trace_app, silent. simpl. now rewrite !List.app_nil_r.
Qed.

Lemma plain_keys_set k v d :
  plain_text k = true ->
  forallb plain_text (keys d) = true ->
  forallb plain_text (keys (set k v d)) = true.
Proof.
  intros Hk Hd. rewrite keys_set. destruct (mem k (keys d)); [assumption|].
  rewrite forallb_app, Hd. simpl. now rewrite Hk.
Qed.

Lemma plain_keys_del k d :
  forallb plain_text (keys d) = true -> forallb plain_text (keys (del k d)) = true.
Proof.
  rewrite keys_del. rewrite !forallb_forall. intros H x Hx.
  apply filter_In in Hx as [Hx _]. auto.
Qed.

(** [remove_item] on a Stock Map of positive quantities with plain
    names leaves such a map, and the other items as they were. *)
Lemma remove_item_keeps d name n :
  positive_stock d = true ->
  forallb plain_text (keys d) = true ->
  exists d' logs,
    remove_item (ledger d) (PyStr name) (PyInt n) = Ok (ledger d', logs)
    /\ positive_stock d' = true
    /\ forallb plain_text (keys d') = true
    /\ forall other, other <> name -> lookup other d' = lookup other d.
Proof.
  intros Hd Hp. destruct (lookup name d) as [v|] eqn:El.
  - destruct (positive_stock_lookup _ _ _ Hd El) as [z [-> Hz]].
    rewrite (remove_item_present d name z (PyInt n) n El eq_refl).
    destruct (z - n <=? 0) eqn:E; do 2 eexists; (split; [reflexivity|]);
      repeat split.
    + now apply positive_stock_del.
    + now apply plain_keys_del.
    + intros other Ho. apply lookup_del_other. congruence.
    + apply positive_stock_set; [|assumption]. apply Z.leb_gt in E. lia.
    + rewrite keys_set. destruct (mem name (keys d)) eqn:Em; [assumption|].
      apply mem_keys_lookup in Em. congruence.
    + intros other Ho. apply lookup_set_other. congruence.
  - rewrite (remove_missing_name d name (PyInt n) eq_refl El).
    do 2 eexists. repeat split; assumption.
Qed.



(** X20: [add_item] never stores under the name ["default"]: whatever
    the dict holds and whatever the arguments are, a call that returns
    leaves the entry of ["default"] as it was (absent, or the value that
    [load_data] read). *)
Theorem add_item_never_touches_default d item qty d' logs :
  add_item (ledger d) item qty = Ok (ledger d', logs) ->
  lookup default_name d' = lookup default_name d.
Proof.
  unfold add_item.
  destruct (negb (isinstance_str item) || eq_str item default_name) eqn:E1.
  { intros H. inversion H. reflexivity. }
  destruct (negb (isinstance_int qty)) eqn:E2.
  { intros H. inversion H. reflexivity. }
  apply orb_false_iff in E1 as [E1 E3].
  destruct item; try discriminate. simpl in E3. apply str_eqb_neq in E3.
  cbn [ledger stock_data get bind setitem].
  destruct (add (match lookup s d with Some v => v | None => PyInt 0 end) qty)
    as [new | e |]; cbn [bind]; try discriminate.
  intros H. inversion H. apply lookup_set_other. assumption.
Qed.

Lemma add_item_never_touches_default_witness :
  lookup default_name (set apple (PyInt 11) fruit) = lookup default_name fruit.
Proof.
  apply (add_item_never_touches_default fruit (PyStr apple) (PyInt 1)
           (set apple (PyInt 11) fruit) [Log INFO (Added (PyInt 1) (PyStr apple))]).
  reflexivity.
Defined.
